(** * FemtOS commander: file browser and command shell

    A shallow embedding of [FemtoRV/FIRMWARE/FEMTOS/commander.c] and the
    properties its design document states about it.

    Conventions of the embedding:
    - an [int] is a [Z] in the range of a 32-bit two's-complement word; the
      arithmetic of the source on its counters and indices ([sel], [from],
      [nb], [cur], [argc]) is followed by [wrap], while the lengths of
      strings stay far from the bounds;
    - a C string is the list of the characters that precede its terminating
      NUL; a [char] array whose contents may hold a NUL is turned into a C
      string with [c_str];
    - calls into femtoGL, the C library's output functions, the FAT library
      and [exec] are recorded, in order, as a list of [event]s;
    - a function that may not come back to its caller (because [exit] was
      called, [exec] took the processor, [getchar] waits for ever, or a write
      left an array) returns in the monad [M]. *)

From Stdlib Require Import ZArith Bool Ascii String List Lia.
Import ListNotations.

Local Open Scope Z_scope.

(** ** Machine integers *)

Module Int.

Definition min_signed : Z := - 2 ^ 31.
Definition max_signed : Z := 2 ^ 31 - 1.
Definition modulus : Z := 2 ^ 32.

(** The value an [int] holds after an arithmetic result [z]. *)
Definition wrap (z : Z) : Z := (z + 2 ^ 31) mod modulus - 2 ^ 31.

Definition in_range (z : Z) : Prop := min_signed <= z <= max_signed.

End Int.

Abbreviation wrap := Int.wrap.

(** ** C strings *)

Definition cstring : Type := list ascii.

(** A string literal of the source. *)
Definition lit (s : string) : cstring := list_ascii_of_string s.

Definition NUL : ascii := Ascii.zero.

Definition code (c : ascii) : Z := Z.of_N (N_of_ascii c).

(** [(char)c] for an [int] [c]. *)
Definition char_of_int (c : Z) : ascii := ascii_of_N (Z.to_N (c mod 256)).

(** The C string that starts at the beginning of a [char] array. *)
Fixpoint c_str (buf : list ascii) : cstring :=
  match buf with
  | [] => []
  | c :: buf' => if Ascii.eqb c NUL then [] else c :: c_str buf'
  end.

(** Filenames and command lines are far shorter than [2 ^ 31] bytes, so the
    conversion of [strlen]'s [size_t] to [int] is exact. *)
Definition strlen (s : cstring) : Z := Z.of_nat (length s).

(** [strcmp]: the difference of the first two characters that differ, as
    [unsigned char]s; the terminator counts as character 0. *)
Fixpoint strcmp (a b : cstring) : Z :=
  match a, b with
  | [], [] => 0
  | [], d :: _ => - code d
  | c :: _, [] => code c
  | c :: a', d :: b' => if code c =? code d then strcmp a' b' else code c - code d
  end.

(** [s + n] for a pointer [s] into a string and [0 <= n <= strlen s]. *)
Definition advance (s : cstring) (n : Z) : cstring := skipn (Z.to_nat n) s.

(** ** The executable filter *)

(** [is_executable], lines 15-20. *)
Definition is_executable (filename : cstring) : bool :=
  let l := strlen filename in
  ((l >=? 4) && (strcmp (advance filename (l - 4)) (lit ".bin") =? 0)) ||
  ((l >=? 4) && (strcmp (advance filename (l - 4)) (lit ".elf") =? 0)).

(** The filter as the design document words it: the length is at least 4 and
    the lowercase of the last four characters is one of the two
    extensions. *)
Definition tolower (c : ascii) : ascii :=
  if (65 <=? code c) && (code c <=? 90) then char_of_int (code c + 32) else c.

Definition spec_is_executable (filename : cstring) : bool :=
  let l := strlen filename in
  (l >=? 4) &&
  (let suffix := map tolower (advance filename (l - 4)) in
   existsb (fun ext => if list_eq_dec ascii_dec suffix ext then true else false)
           [lit ".bin"; lit ".elf"]).

(** ** The platform

    What the firmware takes from headers and libraries that are not part of
    [commander.c].  [OLED_HEIGHT] is the height of the display in pixels
    (femtoGL.h); [atoi] is the C library's; [exec_returns path] tells whether
    FemtOS's [exec] comes back to its caller for [path] (it does not when the
    program it loads keeps the processor). *)
Class Platform : Type := {
  OLED_HEIGHT : Z;
  atoi : cstring -> Z;
  exec_returns : cstring -> bool
}.

Definition FONT_HEIGHT : Z := 8.
Definition PATH_LEN : Z := 255.

(** [#define LINES OLED_HEIGHT / FONT_HEIGHT]; the division of C truncates. *)
Definition LINES `{Platform} : Z := Z.quot OLED_HEIGHT FONT_HEIGHT.

(** Modelled from the spec: the macros [MIN] and [MAX] of femtoGL.h, which
    the design document reads as minimum and maximum. *)
Definition MIN (x y : Z) : Z := if x <? y then x else y.
Definition MAX (x y : Z) : Z := if x >? y then x else y.

(** ** Effects *)

Inductive font : Type := Font3x5 | Font5x6 | Font8x8 | Font8x16.

(** The argument of [GL_tty_init]: one of the two mode constants the source
    names, the current value of femtoGL's global [FGA_mode], or a number
    typed by the user. *)
Inductive gl_mode : Type :=
| GL_MODE_OLED
| FGA_MODE_640x400x4bpp
| FGA_mode
| mode_number (n : Z).

Inductive event : Type :=
| GL_tty_init (mode : gl_mode)
| GL_set_font (f : font)
| GL_tty_goto_xy (x y : Z)
| GL_clear
| GL_set_fg (r g b : Z)
| GL_set_bg (r g b : Z)
| printf (out : cstring)          (* the formatted text *)
| putchar (c : Z)
| fl_listdirectory (path : cstring)
| exec_call (path : cstring)
| exit_call (status : Z).

(** Why a call did not come back. *)
Inductive stop : Type :=
| Exited (status : Z)             (* [exit] ended the program *)
| Transferred (path : cstring)    (* [exec] handed the processor over *)
| AwaitingInput                   (* [getchar] has nothing left to read *)
| OutOfBounds (index : Z)         (* [argv[index]] written past the array *)
| BuffOverflow.                   (* [strcpy] wrote past the end of [buff] *)

Inductive result (A : Type) : Type :=
| Ret (a : A)
| Stop (s : stop).
Arguments Ret {A} a.
Arguments Stop {A} s.

Definition M (A : Type) : Type := (list event * result A)%type.

Definition ret {A} (a : A) : M A := ([], Ret a).

Definition bind {A B} (m : M A) (k : A -> M B) : M B :=
  match m with
  | (t, Ret a) => let (t', r) := k a in (t ++ t', r)
  | (t, Stop s) => (t, Stop s)
  end.

Definition emit (e : event) : M unit := ([e], Ret tt).

(** [t] happened, then [m]. *)
Definition after {A} (t : list event) (m : M A) : M A := (t ++ fst m, snd m).

Declare Scope monad_scope.
Delimit Scope monad_scope with monad.
Notation "x <- m ;; k" := (bind m (fun x => k))
  (at level 61, m at next level, right associativity) : monad_scope.
Notation "' p <- m ;; k" := (bind m (fun x => let p := x in k))
  (at level 61, p pattern, m at next level, right associativity) : monad_scope.
Notation "m ;; k" := (bind m (fun _ => k))
  (at level 61, right associativity) : monad_scope.
Local Open Scope monad_scope.

Definition when (b : bool) (m : M unit) : M unit := if b then m else ret tt.

Definition exec `{Platform} (path : cstring) : M unit :=
  ([exec_call path], if exec_returns path then Ret tt else Stop (Transferred path)).

Definition exit {A} (status : Z) : M A := ([exit_call status], Stop (Exited status)).

(** [strcpy(buff + strlen(buff), src)] on the local [char buff[PATH_LEN]]
    that holds the string [buff] so far ([strcpy(buff, src)] when it holds
    none): the characters of [src] and the terminator are written behind
    those of [buff], and must fit in the [PATH_LEN] bytes of the array. The
    result is the string the array holds then. *)
Definition strcpy_buff (buff src : cstring) : M cstring :=
  if strlen buff + strlen src + 1 <=? PATH_LEN then ret (buff ++ src)
  else ([], Stop BuffOverflow).

(** ** Storage *)

(** Modelled from the spec: the storage adapter (fat_io_lib).  [fl_opendir]
    either fails, or gives a handle from which [fl_readdir] returns 0 once
    for each filename in turn and a non-zero value after the last. *)
Definition directory : Type := option (list cstring).

(** The entries that pass the executable filter, in order. *)
Definition executables (entries : list cstring) : list cstring :=
  filter is_executable entries.

Definition count (entries : list cstring) : Z :=
  Z.of_nat (length (executables entries)).

(** The number of launchable entries; none when the directory cannot be
    opened. *)
Definition total_count (dir : directory) : Z :=
  match dir with
  | Some entries => count entries
  | None => 0
  end.

(** ** The directory page *)

(** [buf[i] = x].  A write outside the array is left out of the model (the
    source makes none for the names a FAT directory can hold). *)
Definition store {A} (buf : list A) (i : Z) (x : A) : list A :=
  if (0 <=? i) && (i <? Z.of_nat (length buf))
  then firstn (Z.to_nat i) buf ++ x :: skipn (S (Z.to_nat i)) buf
  else buf.

(** [strncpy(dst, src, n)]: [n] characters, NUL-padded when [src] is
    shorter. *)
Definition strncpy (dst : list ascii) (src : cstring) (n : Z) : list ascii :=
  let k := Z.to_nat n in
  firstn k (src ++ repeat NUL k) ++ skipn k dst.

(** Lines 44-49 on a buffer [current] with the given initial contents. *)
Definition display_name_in (current : list ascii) (filename : cstring) : cstring :=
  let l := strlen filename in
  let current := strncpy current filename (MIN (l - 4) 14) in
  let current := store current 14 "."%char in
  let current := store current 15 NUL in
  let current := store current (l - 4) NUL in
  c_str current.

(** [current] is an uninitialised local of the source; every cell that
    [printf] reads is written first (see [display_name_in_indep]), so its
    initial contents are fixed here. *)
Definition display_name (filename : cstring) : cstring :=
  display_name_in (repeat NUL (Z.to_nat PATH_LEN)) filename.

Definition newline : cstring := lit (String "010"%char EmptyString).

(** The loop of lines 35-57; [cur] is the number of executables seen. *)
Fixpoint refresh_loop `{Platform} (entries : list cstring) (from sel cur : Z) : M Z :=
  match entries with
  | [] => ret cur
  | filename :: entries' =>
      if negb (is_executable filename) then refresh_loop entries' from sel cur
      else
        when ((cur >=? from) && (cur <? wrap (from + LINES)))
          (when (cur =? sel) (emit (GL_set_fg 0 0 0) ;; emit (GL_set_bg 255 255 255)) ;;
           emit (printf (display_name filename ++ newline)) ;;
           when (cur =? sel) (emit (GL_set_bg 0 0 0) ;; emit (GL_set_fg 255 255 255))) ;;
        refresh_loop entries' from sel (wrap (cur + 1))
  end.

(** [refresh], lines 27-61. *)
Definition refresh `{Platform} (dir : directory) (from sel : Z) : M Z :=
  emit (GL_tty_goto_xy 0 0) ;;
  emit GL_clear ;;
  match dir with
  | Some entries => refresh_loop entries from sel 0
  | None => ret 0
  end.

(** ** The launcher *)

(** The loop of lines 69-79. *)
Fixpoint call_exec_loop `{Platform} (cwd : cstring) (entries : list cstring)
    (sel cur : Z) : M unit :=
  match entries with
  | [] => ret tt
  | filename :: entries' =>
      if is_executable filename then
        when ((cur =? sel) && is_executable filename)
          (buff <- strcpy_buff [] cwd ;;
           buff <- strcpy_buff buff filename ;;
           exec buff ;;
           exit 0) ;;
        call_exec_loop cwd entries' sel (wrap (cur + 1))
      else call_exec_loop cwd entries' sel cur
  end.

(** [call_exec], lines 63-82. *)
Definition call_exec `{Platform} (cwd : cstring) (dir : directory) (sel : Z) : M unit :=
  match dir with
  | Some entries => call_exec_loop cwd entries sel 0
  | None => ret tt
  end.

(** ** The command shell *)

(** [strtok] with the delimiter set [delim].  Its hidden state is the part of
    the line that is still to be scanned; a call skips the delimiters in
    front, and either finds the end of the line (NULL) or returns the token
    up to the next delimiter together with what follows that delimiter. *)
Definition is_delim (delim : cstring) (c : ascii) : bool :=
  existsb (Ascii.eqb c) delim.

Fixpoint skip_delims (delim : cstring) (s : cstring) : cstring :=
  match s with
  | [] => []
  | c :: s' => if is_delim delim c then skip_delims delim s' else s
  end.

Fixpoint take_token (delim : cstring) (s : cstring) : cstring * cstring :=
  match s with
  | [] => ([], [])
  | c :: s' =>
      if is_delim delim c then ([], s')
      else let (tok, rest) := take_token delim s' in (c :: tok, rest)
  end.

Definition strtok (saved : cstring) (delim : cstring) : option (cstring * cstring) :=
  match skip_delims delim saved with
  | [] => None
  | s => Some (take_token delim s)
  end.

Definition ARGV_LEN : Z := 100.

(** The loop of lines 158-161.  [argv] lists the pointers stored so far, so
    [argc] is its length; [bound] is at least the length of [saved] and only
    serves the recursion (see [tokenize_loop_bound]). *)
Fixpoint tokenize_loop (bound : nat) (saved : cstring) (argc : Z)
    (argv : list cstring) : M (Z * list cstring) :=
  match bound with
  | O => ret (argc, argv)
  | S bound' =>
      match strtok saved (lit " ") with
      | None => ret (argc, argv)
      | Some (ptr, saved') =>
          if (0 <=? argc) && (argc <? ARGV_LEN)
          then tokenize_loop bound' saved' (wrap (argc + 1)) (argv ++ [ptr])
          else ([], Stop (OutOfBounds argc))
      end
  end.

Definition tokenize (cmdline : cstring) : M (Z * list cstring) :=
  tokenize_loop (length cmdline) cmdline 0 [].

(** [argv[i]] for [i] below [argc]. *)
Definition arg (argv : list cstring) (i : nat) : cstring := nth i argv [].

Definition streq (a : cstring) (b : string) : bool := strcmp a (lit b) =? 0.

(** [shell_exec], lines 88-135. *)
Definition shell_exec `{Platform} (cwd : cstring) (argc : Z) (argv : list cstring) : M Z :=
  if argc =? 0 then ret 1
  else if streq (arg argv 0) "exit" then ret 0
  else
    (if streq (arg argv 0) "ls" then emit (fl_listdirectory cwd)
     else if streq (arg argv 0) "pwd" then emit (printf (newline ++ cwd ++ newline))
     else if streq (arg argv 0) "mode" then
       if negb (argc =? 2) then emit (printf (lit "invalid number of arguments"))
       else
         let mode := atoi (arg argv 1) in
         emit (GL_tty_init (mode_number mode))
     else if streq (arg argv 0) "font" then
       if negb (argc =? 2) then emit (printf (lit "invalid number of arguments"))
       else
         emit (GL_tty_init FGA_mode) ;;
         let font := atoi (arg argv 1) in
         match font with
         | 0 => emit (GL_set_font Font3x5)
         | 1 => emit (GL_set_font Font5x6)
         | 2 => emit (GL_set_font Font8x8)
         | 3 => emit (GL_set_font Font8x16)
         | _ => ret tt
         end
     else
       emit (printf newline) ;;
       buff <- strcpy_buff [] cwd ;;
       buff <- strcpy_buff buff (arg argv 0) ;;
       buff <- strcpy_buff buff (lit ".elf") ;;
       exec buff) ;;
    ret 1.

(** The shell called on the tokens of a line. *)
Definition dispatch `{Platform} (cwd : cstring) (argv : list cstring) : M Z :=
  shell_exec cwd (Z.of_nat (length argv)) argv.

(** The loop of lines 147-169.  [input] lists what the successive calls of
    [getchar] return; [line] holds the characters between [cmdline] and
    [ptr]. *)
Fixpoint shell_loop `{Platform} (cwd : cstring) (input : list Z) (line : list ascii) : M unit :=
  match input with
  | [] => ([], Stop AwaitingInput)
  | c :: input' =>
      if negb (c =? 10) && negb (c =? 13) then
        emit (putchar c) ;;
        shell_loop cwd input'
          (if Z.of_nat (length line) <? PATH_LEN - 2
           then line ++ [char_of_int c] else line)
      else
        ' (argc, argv) <- tokenize (c_str line) ;;
        r <- shell_exec cwd argc argv ;;
        if r =? 0 then ret tt
        else
          emit (putchar 10) ;;
          emit (putchar 93) ;;
          shell_loop cwd input' []
  end.

(** [shell], lines 137-171. *)
Definition shell `{Platform} (cwd : cstring) (input : list Z) : M unit :=
  emit (GL_tty_init FGA_MODE_640x400x4bpp) ;;
  emit (GL_set_font Font8x16) ;;
  emit (printf (lit "FemtOS v. 0.0" ++ newline)) ;;
  emit (putchar 93) ;;
  shell_loop cwd input [] ;;
  emit (GL_tty_init GL_MODE_OLED).

(** ** The browser *)

(** The persistent globals [sel] and [from], and [main]'s local [nb]. *)
Record browser : Type := Browser { sel : Z; from : Z; nb : Z }.

(** Lines 186-191 and 204-209. *)
Definition reclamp_sel (nb sel : Z) : Z :=
  let sel := if sel <? 0 then 0 else sel in
  if sel >=? nb then wrap (nb - 1) else sel.

(** Lines 192-193 and 211-212. *)
Definition reclamp_from `{Platform} (sel from : Z) : Z :=
  let from := MIN from sel in
  MAX from (wrap (wrap (sel - LINES) + 1)).

(** The re-clamp of the design document: a selection and a scroll offset in,
    the pair the source leaves in [sel] and [from] out. *)
Definition reclamp `{Platform} (nb : Z) (p : Z * Z) : Z * Z :=
  let sel := reclamp_sel nb (fst p) in
  (sel, reclamp_from sel (snd p)).

Definition cwd_root : cstring := lit "/".

(** [main] up to the loop, lines 175-194: [fs] is what [filesystem_init]
    returns, [sel] and [from] are the values of the globals; the result is
    [None] when [main] returns -1. *)
Definition main_start `{Platform} (fs : Z) (dir : directory) (sel from : Z)
    : M (option browser) :=
  emit (GL_tty_init GL_MODE_OLED) ;;
  if negb (fs =? 0) then ret None
  else
    nb <- refresh dir from sel ;;
    let (sel, from) := reclamp nb (sel, from) in
    nb <- refresh dir from sel ;;
    ret (Some (Browser sel from nb)).

(** One turn of the loop, lines 197-214: [btn] is what [GUI_button] returns,
    [keys] what the keyboard delivers should the shell be entered. *)
Definition main_iter `{Platform} (dir : directory) (keys : list Z) (btn : Z)
    (st : browser) : M browser :=
  sel <- match btn with
         | 2 => ret (wrap (sel st - 1))
         | 3 => ret (wrap (sel st + 1))
         | 5 => call_exec cwd_root dir (sel st) ;; ret (sel st)
         | 4 => shell cwd_root keys ;; ret (sel st)
         | _ => ret (sel st)
         end ;;
  let sel := reclamp_sel (nb st) sel in
  if negb (btn =? 0) && negb (btn =? -1) then
    let from := reclamp_from sel (from st) in
    nb <- refresh dir from sel ;;
    ret (Browser sel from nb)
  else ret (Browser sel (from st) (nb st)).

(** The selection a turn of the loop leaves, if the turn comes to its end. *)
Definition selection_after (m : M browser) : option Z :=
  match snd m with
  | Ret st => Some (sel st)
  | Stop _ => None
  end.

(** ** Reference definitions *)

(** A decimal [atoi]: leading white space, an optional sign, digits. *)
Definition isspace (c : ascii) : bool :=
  (code c =? 32) || ((9 <=? code c) && (code c <=? 13)).

Definition isdigit (c : ascii) : bool := (48 <=? code c) && (code c <=? 57).

Fixpoint atoi_digits (s : cstring) (acc : Z) : Z :=
  match s with
  | c :: s' => if isdigit c then atoi_digits s' (wrap (10 * acc + (code c - 48))) else acc
  | [] => acc
  end.

Fixpoint atoi_dec (s : cstring) : Z :=
  match s with
  | [] => 0
  | c :: s' =>
      if isspace c then atoi_dec s'
      else if Ascii.eqb c "-"%char then wrap (- atoi_digits s' 0)
      else if Ascii.eqb c "+"%char then atoi_digits s' 0
      else atoi_digits s 0
  end.

(** A platform to evaluate the firmware on: a display 64 pixels high (eight
    lines of text), the decimal [atoi], and an [exec] that always comes
    back. *)
Definition oled64 : Platform :=
  {| OLED_HEIGHT := 64; atoi := atoi_dec; exec_returns := fun _ => true |}.

(** Splitting at the characters that satisfy [sep], and the non-empty
    pieces. *)
Fixpoint split_at (sep : ascii -> bool) (s : cstring) : list cstring :=
  match s with
  | [] => [[]]
  | c :: s' =>
      if sep c then [] :: split_at sep s'
      else match split_at sep s' with
           | piece :: pieces => (c :: piece) :: pieces
           | [] => [[c]]
           end
  end.

Definition nonempty (s : cstring) : bool :=
  match s with [] => false | _ => true end.

Definition fields (sep : ascii -> bool) (s : cstring) : list cstring :=
  filter nonempty (split_at sep s).

Definition is_space_char (c : ascii) : bool := Ascii.eqb c " "%char.

(** The tokens in the design document's words: the line split at white
    space. *)
Definition spec_tokens (s : cstring) : list cstring := fields isspace s.

(** The line [a a ... a ] of [n] one-letter words, each followed by a
    space, and the key codes that type it. *)
Definition words (n : nat) : cstring := flat_map (fun _ => lit "a ") (seq 0 n).

Definition keys_of (s : cstring) : list Z := map code s.

Definition argument_error : cstring := lit "invalid number of arguments".

(** ** The loop of [main] *)

(** What one turn of the loop finds: the value of [GUI_button], the state of
    the card, and the keys typed should the shell be entered. *)
Record poll : Type := Poll { button : Z; card : directory; typed : list Z }.

(** The first turns of [for(;;)], lines 196-215, one for each poll. *)
Fixpoint main_loop `{Platform} (polls : list poll) (st : browser) : M browser :=
  match polls with
  | [] => ret st
  | p :: polls' =>
      st' <- main_iter (card p) (typed p) (button p) st ;;
      main_loop polls' st'
  end.

(** [main], lines 174-216, up to the end of the given polls; [None] stands for
    the return of -1. *)
Definition main `{Platform} (fs : Z) (dir : directory) (sel from : Z)
    (polls : list poll) : M (option browser) :=
  start <- main_start fs dir sel from ;;
  match start with
  | None => ret None
  | Some st => st' <- main_loop polls st ;; ret (Some st')
  end.

(** The state of the browser fits the card: [nb] counts its programs, the
    window holds the selection, and either there are programs, the selection
    is one of them and the offset is not negative, or there is none and the
    selection is -1. *)
Definition browser_ok `{Platform} (dir : directory) (st : browser) : Prop :=
  nb st = total_count dir /\
  from st <= sel st <= from st + LINES - 1 /\
  (0 < nb st /\ 0 <= sel st < nb st /\ 0 <= from st \/ nb st = 0 /\ sel st = -1).

(** ** Reading a trace *)

(** The texts of the [printf] events. *)
Fixpoint printed (t : list event) : list cstring :=
  match t with
  | [] => []
  | printf out :: t' => out :: printed t'
  | _ :: t' => printed t'
  end.

(** The texts printed while the background is white; [on] tells whether it
    is white at the start. *)
Fixpoint highlighted_from (on : bool) (t : list event) : list cstring :=
  match t with
  | [] => []
  | GL_set_bg r g b :: t' =>
      highlighted_from ((r =? 255) && (g =? 255) && (b =? 255)) t'
  | printf out :: t' =>
      if on then out :: highlighted_from on t' else highlighted_from on t'
  | _ :: t' => highlighted_from on t'
  end.

Definition highlighted (t : list event) : list cstring := highlighted_from false t.

(** The text of the row that shows a file. *)
Definition row (filename : cstring) : cstring := display_name filename ++ newline.

(** The elements of [l] with an index in [[lo, hi)]. *)
Definition window {A} (lo hi : Z) (l : list A) : list A :=
  firstn (Z.to_nat hi - Z.to_nat lo) (skipn (Z.to_nat lo) l).

(** The events that draw the listing. *)
Definition drawing (e : event) : Prop :=
  match e with
  | GL_tty_goto_xy _ _ | GL_clear | GL_set_fg _ _ _ | GL_set_bg _ _ _ | printf _ => True
  | _ => False
  end.

(** What [shell] prints when it starts. *)
Definition banner : list event :=
  [GL_tty_init FGA_MODE_640x400x4bpp; GL_set_font Font8x16;
   printf (lit "FemtOS v. 0.0" ++ newline); putchar 93].

(** The names [shell_exec] handles itself. *)
Definition builtins : list cstring :=
  [lit "exit"; lit "ls"; lit "pwd"; lit "mode"; lit "font"].

(** ** The Mandelbrot demo

    [FemtoRV/FIRMWARE/EXAMPLES/mandel_float.c].  The arithmetic on [float]s
    is left to the platform: the embedding keeps the loops, the order of the
    operations and the integer part, and says nothing about the values of
    the floating-point operations. *)
Module Mandel.

(** The operations of the source on [float]s: [xmin] and [ymin] are the
    constants as [float]s; [twice x] is [2.0 * x]; [above4 x] is [x > 4.0];
    [step H c] is [c + (xmax-xmin)/(float)H], which is what both [dx] and
    [dy] expand to. *)
Class Float : Type := {
  float : Type;
  xmin : float;
  ymin : float;
  fmul : float -> float -> float;
  fadd : float -> float -> float;
  fsub : float -> float -> float;
  twice : float -> float;
  above4 : float -> bool;
  step : Z -> float -> float
}.

Inductive gl_event : Type :=
| GL_write_window (x1 y1 x2 y2 : Z)
| GL_WRITE_DATA_UINT16 (rgb : Z).

(** The [while] loop of lines 32-43, started with [iter] turns left; the
    result is the value of [iter] when the loop is left. *)
Fixpoint escape `{Float} (iter : nat) (Cr Ci Zr Zi : float) : nat :=
  match iter with
  | O => O
  | S iter' =>
      let Zrr := fmul Zr Zr in
      let Zii := fmul Zi Zi in
      let Zri := twice (fmul Zr Zi) in
      let Zr' := fadd (fsub Zrr Zii) Cr in
      let Zi' := fadd Zri Ci in
      if above4 (fadd Zrr Zii) then iter
      else escape iter' Cr Ci Zr' Zi'
  end.

(** [(iter << 19)|(iter << 2)], line 44. *)
Definition colour (iter : Z) : Z := Z.lor (Z.shiftl iter 19) (Z.shiftl iter 2).

(** The loop on [X], lines 29-46, with [n] columns left to draw. *)
Fixpoint columns `{Float} (H : Z) (n : nat) (Cr Ci : float) : list gl_event :=
  match n with
  | O => []
  | S n' =>
      GL_WRITE_DATA_UINT16 (colour (Z.of_nat (escape 15 Cr Ci Cr Ci)))
        :: columns H n' (step H Cr) Ci
  end.

(** The loop on [Y], lines 27-48, with [n] rows left to draw. *)
Fixpoint rows `{Float} (W H : Z) (n : nat) (Ci : float) : list gl_event :=
  match n with
  | O => []
  | S n' => columns H (Z.to_nat W) xmin Ci ++ rows W H n' (step H Ci)
  end.

(** [mandel], lines 24-49, for the values [W] and [H] of [GL_width] and
    [GL_height]. *)
Definition mandel `{Float} (W H : Z) : list gl_event :=
  GL_write_window 0 0 (W - 1) (H - 1) :: rows W H (Z.to_nat H) ymin.

(** The data words of a trace. *)
Fixpoint pixels (t : list gl_event) : list Z :=
  match t with
  | [] => []
  | GL_WRITE_DATA_UINT16 rgb :: t' => rgb :: pixels t'
  | GL_write_window _ _ _ _ :: t' => pixels t'
  end.

(** Floats for evaluation: integers, so that the point (-2, -2) escapes at
    once and every other point the demo visits on a 2x2 screen does too. *)
Definition integers : Float :=
  {| float := Z; xmin := -2; ymin := -2;
     fmul := Z.mul; fadd := Z.add; fsub := Z.sub;
     twice := fun x => 2 * x; above4 := fun x => x >? 4;
     step := fun H c => c + Z.quot 4 H |}.

End Mandel.

(** * Properties *)

(** ** Integers and the monad *)

Lemma wrap_in_range (z : Z) : Int.in_range z -> wrap z = z.
Proof.
  unfold Int.in_range, Int.min_signed, Int.max_signed, Int.wrap, Int.modulus.
  intros Hz. rewrite Z.mod_small; lia.
Qed.

Lemma MIN_min (x y : Z) : MIN x y = Z.min x y.
Proof. unfold MIN. destruct (Z.ltb_spec x y); lia. Qed.

Lemma MAX_max (x y : Z) : MAX x y = Z.max x y.
Proof. unfold MAX. rewrite Z.gtb_ltb. destruct (Z.ltb_spec y x); lia. Qed.

Lemma LINES_bounds `{Platform} :
  FONT_HEIGHT <= OLED_HEIGHT <= Int.max_signed -> 1 <= LINES <= 2 ^ 28.
Proof.
  unfold LINES, FONT_HEIGHT, Int.max_signed. intros Hh.
  rewrite Z.quot_div_nonneg by lia.
  split.
  - apply Z.div_le_lower_bound; lia.
  - apply Z.div_le_upper_bound; lia.
Qed.

(** ** Re-clamping *)

Lemma reclamp_sel_cases (nb sel : Z) :
  0 <= nb <= Int.max_signed ->
  reclamp_sel nb sel = Z.max 0 sel /\ Z.max 0 sel < nb \/
  reclamp_sel nb sel = nb - 1 /\ nb <= Z.max 0 sel.
Proof.
  intros Hnb. unfold reclamp_sel.
  assert (Hw : wrap (nb - 1) = nb - 1).
  { apply wrap_in_range. unfold Int.in_range, Int.min_signed, Int.max_signed in *. lia. }
  rewrite Hw, Z.geb_leb.
  destruct (Z.ltb_spec sel 0), (Z.leb_spec nb 0); try lia;
    destruct (Z.leb_spec nb sel); lia.
Qed.

Lemma reclamp_from_max_min `{Platform} (sel from : Z) :
  FONT_HEIGHT <= OLED_HEIGHT <= Int.max_signed ->
  -1 <= sel <= Int.max_signed ->
  reclamp_from sel from = Z.max (Z.min from sel) (sel - LINES + 1).
Proof.
  intros Hh Hsel. pose proof (LINES_bounds Hh) as HL.
  unfold reclamp_from. rewrite MIN_min, MAX_max.
  unfold Int.max_signed in *.
  rewrite (wrap_in_range (sel - LINES)), wrap_in_range;
    unfold Int.in_range, Int.min_signed, Int.max_signed; lia.
Qed.

(** C1, as the code has it: from the start-up state with no executable on
    the card the scroll offset becomes -1, and a negative offset that is
    already there survives the re-clamp; so [main], started without a
    readable card, holds the offset -1 once a card with two programs is in
    and the selection is on the first. *)
Lemma reclamp_negative_top :
  @reclamp oled64 0 (0, 0) = (-1, -1) /\
  @reclamp oled64 5 (0, -3) = (0, -3) /\
  snd (@reclamp oled64 0 (0, 0)) < 0 /\
  snd (@main_start oled64 0 None 0 0) = Ret (Some (Browser (-1) (-1) 0)) /\
  snd (@main_iter oled64 (Some [lit "a.bin"; lit "b.elf"]) [] 3 (Browser (-1) (-1) 0))
    = Ret (Browser (-1) (-1) 2) /\
  snd (@main_iter oled64 (Some [lit "a.bin"; lit "b.elf"]) [] 3 (Browser (-1) (-1) 2))
    = Ret (Browser 0 (-1) 2).
Proof. vm_compute. repeat split; reflexivity. Qed.

(** C1 (amended): for a count [nb >= 0] and any [int]s [sel] and [from], the
    re-clamped pair has its selection in [[0, nb - 1]] when [nb > 0] and its
    window around the selection, [from' <= sel' <= from' + LINES - 1]; the
    offset [from'] is non-negative when [nb > 0] and [from] was. *)
Theorem reclamp_invariants `{Platform} (nb sel from : Z) :
  FONT_HEIGHT <= OLED_HEIGHT <= Int.max_signed ->
  0 <= nb <= Int.max_signed ->
  Int.in_range sel -> Int.in_range from ->
  let p := reclamp nb (sel, from) in
  (0 < nb -> 0 <= fst p < nb) /\
  snd p <= fst p <= snd p + LINES - 1 /\
  (0 < nb -> 0 <= from -> 0 <= snd p).
Proof.
  intros Hh Hnb Hsel Hfrom. cbv zeta. unfold reclamp. cbn [fst snd].
  pose proof (LINES_bounds Hh) as HL.
  pose proof (reclamp_sel_cases nb sel Hnb) as Hs.
  rewrite reclamp_from_max_min by (auto; unfold Int.max_signed in *; lia).
  lia.
Qed.

Lemma reclamp_invariants_witness :
  let p := @reclamp oled64 20 (15, 0) in
  p = (15, 8) /\
  ((0 < 20 -> 0 <= fst p < 20) /\
   snd p <= fst p <= snd p + @LINES oled64 - 1 /\
   (0 < 20 -> 0 <= 0 -> 0 <= snd p)).
Proof.
  split; [reflexivity |].
  apply (@reclamp_invariants oled64 20 15 0); vm_compute; split; discriminate.
Defined.

(** C2: for a count [nb >= 0], re-clamping the pair that a re-clamp returned
    gives that pair back. *)
Theorem reclamp_idempotent `{Platform} (nb sel from : Z) :
  0 <= nb <= Int.max_signed ->
  reclamp nb (reclamp nb (sel, from)) = reclamp nb (sel, from).
Proof.
  intros Hnb. unfold reclamp. cbn [fst snd].
  assert (Hsel : reclamp_sel nb (reclamp_sel nb sel) = reclamp_sel nb sel).
  { pose proof (reclamp_sel_cases nb sel Hnb) as Hs.
    pose proof (reclamp_sel_cases nb (reclamp_sel nb sel) Hnb) as Hs'.
    lia. }
  rewrite Hsel. f_equal.
  unfold reclamp_from. rewrite !MIN_min, !MAX_max. lia.
Qed.

Lemma reclamp_idempotent_witness :
  @reclamp oled64 0 (@reclamp oled64 0 (7, 3)) = @reclamp oled64 0 (7, 3).
Proof.
  apply (@reclamp_idempotent oled64 0 7 3). vm_compute. split; discriminate.
Defined.

(** ** The monad *)

Lemma bind_ret {A B} (a : A) (k : A -> M B) : bind (ret a) k = k a.
Proof. unfold bind, ret. destruct (k a). reflexivity. Qed.

Lemma bind_emit {B} (e : event) (k : unit -> M B) :
  bind (emit e) k = after [e] (k tt).
Proof. unfold bind, emit, after. destruct (k tt). reflexivity. Qed.

Lemma bind_events {A B} (t : list event) (a : A) (k : A -> M B) :
  bind (t, Ret a) k = after t (k a).
Proof. unfold bind, after. destruct (k a). reflexivity. Qed.

Lemma bind_after {A B} (t : list event) (m : M A) (k : A -> M B) :
  bind (after t m) k = after t (bind m k).
Proof.
  unfold bind, after. destruct m as [t' [a | s]]; cbn [fst snd].
  - destruct (k a). cbn [fst snd]. rewrite app_assoc. reflexivity.
  - reflexivity.
Qed.

Lemma after_after {A} (t t' : list event) (m : M A) :
  after t (after t' m) = after (t ++ t') m.
Proof. unfold after. cbn [fst snd]. rewrite app_assoc. reflexivity. Qed.

Lemma snd_bind {A B} (m : M A) (k : A -> M B) (a : A) :
  snd m = Ret a -> snd (bind m k) = snd (k a).
Proof.
  destruct m as [t r]. cbn [snd]. intros ->. unfold bind.
  destruct (k a). reflexivity.
Qed.

(** ** Refresh *)

Lemma refresh_row_returns `{Platform} (b c : bool) (name : cstring) :
  snd (when b
         (when c (emit (GL_set_fg 0 0 0) ;; emit (GL_set_bg 255 255 255)) ;;
          emit (printf name) ;;
          when c (emit (GL_set_bg 0 0 0) ;; emit (GL_set_fg 255 255 255)))) = Ret tt.
Proof. destruct b, c; reflexivity. Qed.

Lemma refresh_loop_count `{Platform} (entries : list cstring) (from sel cur : Z) :
  0 <= cur -> cur + count entries <= Int.max_signed ->
  snd (refresh_loop entries from sel cur) = Ret (cur + count entries).
Proof.
  revert cur. unfold count, executables.
  induction entries as [| filename entries IH]; intros cur Hcur Hmax;
    cbn [refresh_loop filter] in Hmax |- *.
  - cbn. f_equal. lia.
  - destruct (is_executable filename); cbn [negb].
    + cbn [length] in *.
      rewrite (snd_bind _ _ tt) by apply refresh_row_returns.
      assert (Hw : wrap (cur + 1) = cur + 1).
      { apply wrap_in_range. unfold Int.in_range, Int.min_signed, Int.max_signed in *. lia. }
      rewrite Hw, IH by lia. f_equal. lia.
    + apply IH; assumption.
Qed.

Lemma refresh_loop_returns `{Platform} (entries : list cstring) (from sel cur : Z) :
  exists n, snd (refresh_loop entries from sel cur) = Ret n.
Proof.
  revert cur.
  induction entries as [| filename entries IH]; intros cur; cbn [refresh_loop].
  - exists cur. reflexivity.
  - destruct (is_executable filename); cbn [negb].
    + rewrite (snd_bind _ _ tt) by apply refresh_row_returns. apply IH.
    + apply IH.
Qed.

Lemma refresh_returns `{Platform} (dir : directory) (from sel : Z) :
  exists n, snd (refresh dir from sel) = Ret n.
Proof.
  unfold refresh. rewrite !bind_emit. unfold after. cbn [snd].
  destruct dir as [entries |].
  - apply refresh_loop_returns.
  - exists 0. reflexivity.
Qed.

Lemma refresh_count `{Platform} (dir : directory) (from sel : Z) :
  total_count dir <= Int.max_signed ->
  snd (refresh dir from sel) = Ret (total_count dir).
Proof.
  intros Hmax.
  unfold refresh. rewrite !bind_emit. unfold after. cbn [snd].
  destruct dir as [entries |]; [| reflexivity].
  cbn [total_count] in *. rewrite refresh_loop_count by (unfold count in *; lia).
  reflexivity.
Qed.

(** C5: [refresh] returns the number of directory entries that pass the
    executable filter, whatever the window [from] and the selection [sel];
    when the directory cannot be opened it clears the screen and returns 0. *)
Theorem refresh_total_count `{Platform} (dir : directory) (from sel : Z) :
  total_count dir <= Int.max_signed ->
  snd (refresh dir from sel) = Ret (total_count dir) /\
  refresh None from sel = ([GL_tty_goto_xy 0 0; GL_clear], Ret 0).
Proof.
  intros Hmax. split; [apply refresh_count; assumption | reflexivity].
Qed.

Lemma refresh_total_count_witness :
  snd (@refresh oled64
         (Some [lit "a.bin"; lit "notes.txt"; lit "b.elf"; lit "c.bin"]) 1 1) = Ret 3.
Proof.
  apply (@refresh_total_count oled64
           (Some [lit "a.bin"; lit "notes.txt"; lit "b.elf"; lit "c.bin"]) 1 1).
  vm_compute. discriminate.
Defined.

(** ** Launching *)

Lemma call_exec_loop_skip `{Platform} (cwd : cstring) (entries : list cstring) (sel cur : Z) :
  0 <= cur -> cur + count entries <= Int.max_signed ->
  sel < cur \/ cur + count entries <= sel ->
  call_exec_loop cwd entries sel cur = ret tt.
Proof.
  revert cur. unfold count, executables.
  induction entries as [| filename entries IH]; intros cur Hcur Hmax Hsel;
    cbn [call_exec_loop filter] in Hmax, Hsel |- *.
  - reflexivity.
  - destruct (is_executable filename).
    + cbn [length] in *.
      assert (Hne : (cur =? sel) = false) by (apply Z.eqb_neq; lia).
      rewrite Hne. cbn [andb when]. rewrite bind_ret.
      assert (Hw : wrap (cur + 1) = cur + 1).
      { apply wrap_in_range. unfold Int.in_range, Int.min_signed, Int.max_signed in *. lia. }
      rewrite Hw. apply IH; lia.
    + apply IH; assumption.
Qed.

(** C6: when the directory cannot be opened, or the selection is negative or
    not below the number of launchable entries, [call_exec] returns to its
    caller and has called neither [exec] nor anything else. *)
Theorem call_exec_out_of_range `{Platform} (cwd : cstring) (dir : directory) (sel : Z) :
  total_count dir <= Int.max_signed ->
  dir = None \/ sel < 0 \/ total_count dir <= sel ->
  call_exec cwd dir sel = ([], Ret tt).
Proof.
  intros Hmax Hsel. unfold call_exec.
  destruct dir as [entries |]; [| reflexivity].
  cbn [total_count] in *.
  apply call_exec_loop_skip; try lia.
  destruct Hsel as [Hnone | Hsel]; [discriminate | lia].
Qed.

Lemma call_exec_out_of_range_witness :
  @call_exec oled64 cwd_root (Some [lit "a.bin"; lit "notes.txt"; lit "b.elf"]) 2
  = ([], Ret tt).
Proof.
  apply (@call_exec_out_of_range oled64 cwd_root
           (Some [lit "a.bin"; lit "notes.txt"; lit "b.elf"]) 2).
  - vm_compute. discriminate.
  - right. right. vm_compute. discriminate.
Defined.

(** ** Moving the selection *)

Lemma main_iter_move `{Platform} (dir : directory) (keys : list Z) (st : browser) (btn : Z) :
  btn = 2 \/ btn = 3 ->
  selection_after (main_iter dir keys btn st) =
    Some (reclamp_sel (nb st) (wrap (if btn =? 2 then sel st - 1 else sel st + 1))).
Proof.
  intros Hbtn. unfold selection_after, main_iter.
  destruct (refresh_returns dir
              (reclamp_from (reclamp_sel (nb st) (wrap (if btn =? 2 then sel st - 1 else sel st + 1)))
                            (from st))
              (reclamp_sel (nb st) (wrap (if btn =? 2 then sel st - 1 else sel st + 1))))
    as [n Hn].
  destruct Hbtn as [-> | ->]; cbn [Z.eqb Pos.eqb negb andb] in *; rewrite bind_ret.
  - rewrite (snd_bind _ _ n) by (exact Hn). reflexivity.
  - rewrite (snd_bind _ _ n) by (exact Hn). reflexivity.
Qed.

(** C7, as the code has it: the selection is clamped with the count of the
    last redraw, so a card with fewer programs leaves it beyond the list.
    From the start on a card with ten programs, eight presses of down and,
    after the card is changed for one with two programs, a button without
    function, [main] holds the selection 8 with a count of 2; a move up then
    takes the selection from 8 to 1, and so does a move down. *)
Lemma directional_move_jump :
  snd (@main oled64 0
         (Some (map (fun c => c :: lit ".bin") (list_ascii_of_string "abcdefghij"))) 0 0
         (repeat (Poll 3 (Some (map (fun c => c :: lit ".bin")
                                    (list_ascii_of_string "abcdefghij"))) []) 8 ++
          [Poll 1 (Some [lit "a.bin"; lit "b.elf"]) []]))
    = Ret (Some (Browser 8 1 2)) /\
  0 < nb (Browser 8 1 2) /\
  selection_after (@main_iter oled64 (Some [lit "a.bin"; lit "b.elf"]) [] 2 (Browser 8 1 2))
    = Some 1 /\
  selection_after (@main_iter oled64 (Some [lit "a.bin"; lit "b.elf"]) [] 3 (Browser 8 1 2))
    = Some 1.
Proof. vm_compute. repeat split. Qed.

(** C7 (amended): with a count [nb > 0], button 2 (up) sets the selection to
    [sel - 1] and button 3 (down) to [sel + 1], clamped into [[0, nb - 1]],
    where [nb] is the count of the last redraw, and the turn of the loop
    comes to its end. So with the selection inside the list the move is by
    exactly one, except that up at 0 leaves 0 and down at [nb - 1] leaves
    [nb - 1]; a selection beyond the list goes to [nb - 1]. *)
Theorem directional_move_clamped `{Platform} (dir : directory) (keys : list Z) (st : browser) :
  0 < nb st <= Int.max_signed ->
  Int.min_signed < sel st < Int.max_signed ->
  selection_after (main_iter dir keys 2 st)
    = Some (Z.max 0 (Z.min (nb st - 1) (sel st - 1))) /\
  selection_after (main_iter dir keys 3 st)
    = Some (Z.max 0 (Z.min (nb st - 1) (sel st + 1))) /\
  (0 <= sel st < nb st ->
   selection_after (main_iter dir keys 2 st)
     = Some (if sel st =? 0 then 0 else sel st - 1) /\
   selection_after (main_iter dir keys 3 st)
     = Some (if sel st =? nb st - 1 then nb st - 1 else sel st + 1)).
Proof.
  intros Hnb Hsel.
  rewrite !main_iter_move by auto. cbn [Z.eqb Pos.eqb].
  assert (Hup : wrap (sel st - 1) = sel st - 1).
  { rewrite wrap_in_range; unfold Int.in_range, Int.min_signed, Int.max_signed in *; lia. }
  assert (Hdown : wrap (sel st + 1) = sel st + 1).
  { rewrite wrap_in_range; unfold Int.in_range, Int.min_signed, Int.max_signed in *; lia. }
  rewrite Hup, Hdown.
  assert (Hnb' : 0 <= nb st <= Int.max_signed) by lia.
  pose proof (reclamp_sel_cases (nb st) (sel st - 1) Hnb') as Hu.
  pose proof (reclamp_sel_cases (nb st) (sel st + 1) Hnb') as Hd.
  split; [f_equal; lia |]. split; [f_equal; lia |].
  intros Hin. split; f_equal.
  - destruct (Z.eqb_spec (sel st) 0); lia.
  - destruct (Z.eqb_spec (sel st) (nb st - 1)); lia.
Qed.

Lemma directional_move_clamped_witness :
  (selection_after (@main_iter oled64 (Some [lit "a.bin"; lit "b.elf"]) [] 2 (Browser 0 0 2))
     = Some (Z.max 0 (Z.min (2 - 1) (0 - 1))) /\
   selection_after (@main_iter oled64 (Some [lit "a.bin"; lit "b.elf"]) [] 3 (Browser 0 0 2))
     = Some (Z.max 0 (Z.min (2 - 1) (0 + 1)))) /\
  (selection_after (@main_iter oled64 (Some [lit "a.bin"; lit "b.elf"]) [] 2 (Browser 8 1 2))
     = Some (Z.max 0 (Z.min (2 - 1) (8 - 1))) /\
   selection_after (@main_iter oled64 (Some [lit "a.bin"; lit "b.elf"]) [] 3 (Browser 8 1 2))
     = Some (Z.max 0 (Z.min (2 - 1) (8 + 1)))).
Proof.
  split.
  - pose proof (@directional_move_clamped oled64 (Some [lit "a.bin"; lit "b.elf"]) []
                  (Browser 0 0 2)) as Hmove.
    cbn [nb sel] in Hmove.
    destruct Hmove as (Hup & Hdown & _);
      [vm_compute; split; (reflexivity || discriminate) ..| ].
    split; assumption.
  - pose proof (@directional_move_clamped oled64 (Some [lit "a.bin"; lit "b.elf"]) []
                  (Browser 8 1 2)) as Hmove.
    cbn [nb sel] in Hmove.
    destruct Hmove as (Hup & Hdown & _);
      [vm_compute; split; (reflexivity || discriminate) ..| ].
    split; assumption.
Defined.

(** ** The executable filter *)

Lemma code_inj (c d : ascii) : code c = code d -> c = d.
Proof.
  unfold code. intros Hcd. apply N2Z.inj in Hcd.
  rewrite <- (ascii_N_embedding c), <- (ascii_N_embedding d), Hcd. reflexivity.
Qed.

Lemma strcmp_refl (a : cstring) : strcmp a a = 0.
Proof. induction a as [| c a IH]; cbn; [| rewrite Z.eqb_refl]; auto. Qed.

Lemma strcmp_same_length (a b : cstring) :
  length a = length b -> strcmp a b = 0 -> a = b.
Proof.
  revert b. induction a as [| c a IH]; intros [| d b] Hlen Hcmp; try discriminate.
  - reflexivity.
  - cbn in Hcmp. destruct (Z.eqb_spec (code c) (code d)) as [Hcd | Hcd]; [| lia].
    f_equal; [apply code_inj; assumption | apply IH; [injection Hlen; auto | assumption]].
Qed.

Lemma has_extension_iff (filename ext : cstring) :
  length ext = 4%nat ->
  let l := strlen filename in
  (l >=? 4) && (strcmp (advance filename (l - 4)) ext =? 0) = true <->
  exists stem, filename = stem ++ ext.
Proof.
  intros Hext. cbv zeta. unfold strlen, advance.
  rewrite andb_true_iff, Z.geb_le, Z.eqb_eq. split.
  - intros [Hl Hcmp]. exists (firstn (Z.to_nat (Z.of_nat (length filename) - 4)) filename).
    apply strcmp_same_length in Hcmp.
    + rewrite <- Hcmp. symmetry. apply firstn_skipn.
    + rewrite length_skipn. lia.
  - intros [stem ->]. rewrite length_app, Hext.
    replace (Z.to_nat (Z.of_nat (length stem + 4) - 4)) with (length stem) by lia.
    rewrite skipn_app, skipn_all, Nat.sub_diag. cbn [skipn app].
    split; [lia | apply strcmp_refl].
Qed.

(** C3, as the code has it: a name whose suffix is an extension in capitals
    has length at least 4 and a suffix whose lowercase is [.bin], and is not
    classified as launchable. *)
Lemma is_executable_case_sensitive :
  is_executable (lit "GAME.BIN") = false /\
  4 <= strlen (lit "GAME.BIN") /\
  map tolower (advance (lit "GAME.BIN") (strlen (lit "GAME.BIN") - 4)) = lit ".bin" /\
  spec_is_executable (lit "GAME.BIN") = true.
Proof. vm_compute. repeat split; discriminate. Qed.

(** C3 (amended): [is_executable] is a total function of the name, and is
    true exactly when the name has at least 4 characters and ends, character
    for character, in [.bin] or in [.elf]; so [game.bin] and [game.elf] are
    launchable, and [readme.txt], [a.bi] and every name of fewer than 4
    characters are not. *)
Theorem is_executable_exact_suffix :
  (forall filename,
      is_executable filename = true <->
      4 <= strlen filename /\
      exists stem, filename = stem ++ lit ".bin" \/ filename = stem ++ lit ".elf") /\
  is_executable (lit "game.bin") = true /\
  is_executable (lit "game.elf") = true /\
  is_executable (lit "readme.txt") = false /\
  is_executable (lit "a.bi") = false /\
  (forall filename, strlen filename < 4 -> is_executable filename = false).
Proof.
  assert (Hiff : forall filename,
             is_executable filename = true <->
             exists stem, filename = stem ++ lit ".bin" \/ filename = stem ++ lit ".elf").
  { intros filename. unfold is_executable. cbv zeta.
    rewrite orb_true_iff.
    rewrite (has_extension_iff filename (lit ".bin") eq_refl).
    rewrite (has_extension_iff filename (lit ".elf") eq_refl).
    split.
    - intros [[stem Hs] | [stem Hs]]; exists stem; auto.
    - intros [stem [Hs | Hs]]; [left | right]; exists stem; assumption. }
  assert (Hlen : forall filename, is_executable filename = true -> 4 <= strlen filename).
  { intros filename Hx. apply Hiff in Hx. destruct Hx as [stem [-> | ->]];
      unfold strlen; rewrite length_app; cbn; lia. }
  repeat split; try reflexivity.
  - apply Hlen; assumption.
  - apply Hiff; assumption.
  - intros [_ Hs]. apply Hiff; assumption.
  - intros filename Hshort. destruct (is_executable filename) eqn:Hx; [| reflexivity].
    apply Hlen in Hx. lia.
Qed.

(** ** Tokens *)

Lemma is_delim_space (c : ascii) : is_delim (lit " ") c = is_space_char c.
Proof. unfold is_delim, is_space_char. cbn. apply orb_false_r. Qed.

Lemma fields_sep (sep : ascii -> bool) (c : ascii) (s : cstring) :
  sep c = true -> fields sep (c :: s) = fields sep s.
Proof. intros Hc. unfold fields. cbn. rewrite Hc. reflexivity. Qed.

Lemma fields_skip_delims (s : cstring) :
  fields is_space_char (skip_delims (lit " ") s) = fields is_space_char s.
Proof.
  induction s as [| c s IH]; cbn [skip_delims]; [reflexivity |].
  rewrite is_delim_space. destruct (is_space_char c) eqn:Hc; [| reflexivity].
  rewrite IH. symmetry. apply fields_sep. assumption.
Qed.

Lemma skip_delims_length (s : cstring) :
  (length (skip_delims (lit " ") s) <= length s)%nat.
Proof.
  induction s as [| c s IH]; cbn [skip_delims]; [lia |].
  destruct (is_delim (lit " ") c); cbn [length]; lia.
Qed.

Lemma skip_delims_head (s : cstring) (c : ascii) (s' : cstring) :
  skip_delims (lit " ") s = c :: s' -> is_space_char c = false.
Proof.
  induction s as [| d s IH]; cbn [skip_delims]; [discriminate |].
  rewrite is_delim_space. destruct (is_space_char d) eqn:Hd; [assumption |].
  intros Heq. injection Heq as -> _. assumption.
Qed.

Lemma take_token_split (s : cstring) :
  exists pieces,
    split_at is_space_char s = fst (take_token (lit " ") s) :: pieces /\
    filter nonempty pieces = fields is_space_char (snd (take_token (lit " ") s)) /\
    (length (snd (take_token (lit " ") s)) <= length s)%nat.
Proof.
  induction s as [| c s IH]; cbn [take_token split_at].
  - exists []. repeat split; auto.
  - rewrite is_delim_space. destruct (is_space_char c) eqn:Hc.
    + exists (split_at is_space_char s). cbn [fst snd length]. repeat split; auto.
    + destruct IH as (pieces & Hsplit & Hrest & Hlen).
      destruct (take_token (lit " ") s) as [tok rest]. cbn [fst snd length] in *.
      exists pieces. rewrite Hsplit. repeat split; auto.
Qed.

(** What one call of [strtok] finds, in terms of the fields of the line. *)
Lemma strtok_fields (saved : cstring) :
  match strtok saved (lit " ") with
  | None => fields is_space_char saved = []
  | Some (tok, rest) =>
      fields is_space_char saved = tok :: fields is_space_char rest /\
      (length rest < length saved)%nat
  end.
Proof.
  unfold strtok. pose proof (fields_skip_delims saved) as Hskip.
  pose proof (skip_delims_length saved) as Hlen.
  destruct (skip_delims (lit " ") saved) as [| c s] eqn:Hs.
  - rewrite <- Hskip. reflexivity.
  - pose proof (skip_delims_head _ _ _ Hs) as Hc.
    destruct (take_token_split s) as (pieces & Hsplit & Hrest & Hlen').
    cbn [take_token]. rewrite is_delim_space, Hc.
    destruct (take_token (lit " ") s) as [tok rest]. cbn [fst snd length] in *.
    split; [| lia].
    rewrite <- Hskip. unfold fields at 1. cbn [split_at]. rewrite Hc, Hsplit.
    cbn [filter nonempty]. rewrite Hrest. reflexivity.
Qed.

Lemma tokenize_loop_fields (bound : nat) (saved : cstring) (argv : list cstring) :
  (length saved <= bound)%nat ->
  Z.of_nat (length argv + length (fields is_space_char saved)) <= ARGV_LEN ->
  tokenize_loop bound saved (Z.of_nat (length argv)) argv =
    ret (Z.of_nat (length (argv ++ fields is_space_char saved)),
         argv ++ fields is_space_char saved).
Proof.
  revert saved argv.
  induction bound as [| bound IH]; intros saved argv Hbound Hfit; cbn [tokenize_loop].
  - destruct saved; [| cbn in Hbound; lia].
    unfold fields. cbn. rewrite app_nil_r. reflexivity.
  - pose proof (strtok_fields saved) as Htok.
    destruct (strtok saved (lit " ")) as [[tok rest] |].
    + destruct Htok as [Hfields Hlen]. rewrite Hfields in *. cbn [length] in Hfit.
      unfold ARGV_LEN in *.
      replace ((0 <=? Z.of_nat (length argv)) && (Z.of_nat (length argv) <? 100))
        with true by (symmetry; apply andb_true_iff; split; [apply Z.leb_le | apply Z.ltb_lt]; lia).
      rewrite wrap_in_range
        by (unfold Int.in_range, Int.min_signed, Int.max_signed; lia).
      replace (Z.of_nat (length argv) + 1) with (Z.of_nat (length (argv ++ [tok])))
        by (rewrite length_app; cbn [length]; lia).
      rewrite IH.
      * rewrite <- app_assoc. reflexivity.
      * lia.
      * rewrite length_app. cbn [length]. lia.
    + rewrite Htok, app_nil_r. reflexivity.
Qed.

Lemma tokenize_fields (cmdline : cstring) :
  Z.of_nat (length (fields is_space_char cmdline)) <= ARGV_LEN ->
  tokenize cmdline =
    ret (Z.of_nat (length (fields is_space_char cmdline)), fields is_space_char cmdline).
Proof.
  intros Hfit. unfold tokenize.
  apply (tokenize_loop_fields (length cmdline) cmdline []); auto.
Qed.

(** The bound of [tokenize_loop] does not matter once it covers the line. *)
Lemma tokenize_loop_bound (bound bound' : nat) (saved : cstring) (argc : Z)
    (argv : list cstring) :
  (length saved <= bound)%nat -> (length saved <= bound')%nat ->
  tokenize_loop bound saved argc argv = tokenize_loop bound' saved argc argv.
Proof.
  revert bound' saved argc argv.
  induction bound as [| bound IH]; intros [| bound'] saved argc argv Hb Hb';
    try (destruct saved; [reflexivity | cbn in Hb, Hb'; lia]).
  cbn [tokenize_loop].
  pose proof (strtok_fields saved) as Htok.
  destruct (strtok saved (lit " ")) as [[tok rest] |]; [| reflexivity].
  destruct Htok as [_ Hlen].
  destruct ((0 <=? argc) && (argc <? ARGV_LEN)); [| reflexivity].
  apply IH; lia.
Qed.

(** [fields] gives the maximal runs of non-separators: a run that a separator
    or the end of the line follows is the first field. *)
Lemma split_at_run (sep : ascii -> bool) (tok : cstring) (c : ascii) (s : cstring) :
  Forall (fun d => sep d = false) tok -> sep c = true ->
  split_at sep (tok ++ c :: s) = tok :: split_at sep s.
Proof.
  intros Htok Hc. induction Htok as [| d tok Hd _ IH]; cbn [app split_at].
  - rewrite Hc. reflexivity.
  - rewrite Hd, IH. reflexivity.
Qed.

Lemma split_at_last_run (sep : ascii -> bool) (tok : cstring) :
  Forall (fun d => sep d = false) tok -> split_at sep tok = [tok].
Proof.
  intros Htok. induction Htok as [| d tok Hd _ IH]; cbn [split_at].
  - reflexivity.
  - rewrite Hd, IH. reflexivity.
Qed.

Lemma fields_run (sep : ascii -> bool) (tok : cstring) (c : ascii) (s : cstring) :
  tok <> [] -> Forall (fun d => sep d = false) tok -> sep c = true ->
  fields sep (tok ++ c :: s) = tok :: fields sep s.
Proof.
  intros Hne Htok Hc. unfold fields. rewrite split_at_run by assumption.
  destruct tok; [contradiction | reflexivity].
Qed.

Lemma fields_last_run (sep : ascii -> bool) (tok : cstring) :
  tok <> [] -> Forall (fun d => sep d = false) tok -> fields sep tok = [tok].
Proof.
  intros Hne Htok. unfold fields. rewrite split_at_last_run by assumption.
  destruct tok; [contradiction | reflexivity].
Qed.

Lemma split_at_pieces (sep : ascii -> bool) (s : cstring) :
  Forall (Forall (fun d => sep d = false)) (split_at sep s).
Proof.
  induction s as [| c s IH]; cbn [split_at].
  - repeat constructor.
  - destruct (sep c) eqn:Hc.
    + constructor; [constructor | assumption].
    + destruct (split_at sep s) as [| piece pieces].
      * repeat constructor. assumption.
      * inversion IH; subst. constructor; [constructor |]; assumption.
Qed.

Lemma fields_tokens (s : cstring) :
  Forall (fun tok => tok <> [] /\ ~ In " "%char tok) (fields is_space_char s).
Proof.
  unfold fields. apply Forall_forall. intros tok Hin.
  apply filter_In in Hin. destruct Hin as [Hin Hne]. split.
  - destruct tok; [discriminate | congruence].
  - pose proof (split_at_pieces is_space_char s) as Hall.
    rewrite Forall_forall in Hall. specialize (Hall tok Hin).
    rewrite Forall_forall in Hall. intros Hsp. apply Hall in Hsp. discriminate.
Qed.

Lemma fields_spaces (n : nat) : fields is_space_char (repeat " "%char n) = [].
Proof.
  induction n as [| n IH]; [reflexivity |].
  cbn [repeat]. rewrite fields_sep by reflexivity. assumption.
Qed.

Lemma shell_loop_dispatch `{Platform} (cwd : cstring) (c : Z) (input : list Z)
    (line : list ascii) (argv : list cstring) (out : list event) :
  c = 10 \/ c = 13 ->
  tokenize (c_str line) = ret (Z.of_nat (length argv), argv) ->
  dispatch cwd argv = (out, Ret 1) ->
  shell_loop cwd (c :: input) line =
    after (out ++ [putchar 10; putchar 93]) (shell_loop cwd input []).
Proof.
  intros Hc Htok Hrun. cbn [shell_loop].
  replace (negb (c =? 10) && negb (c =? 13)) with false
    by (destruct Hc as [-> | ->]; reflexivity).
  rewrite Htok, bind_ret. unfold dispatch in Hrun. rewrite Hrun.
  rewrite bind_events. cbn [Z.eqb].
  rewrite !bind_emit, !after_after, <- app_assoc. reflexivity.
Qed.

(** C4, as the code has it: a tab is white space, yet it does not separate
    tokens, and a line that holds only a tab yields a token, which is
    dispatched as the name of a program. *)
Lemma tokenize_tab_not_separator :
  isspace "009"%char = true /\
  tokenize ["a"; "009"; "b"]%char = ([], Ret (1, [["a"; "009"; "b"]%char])) /\
  spec_tokens ["a"; "009"; "b"]%char = [["a"%char]; ["b"%char]] /\
  tokenize ["009"%char] = ([], Ret (1, [["009"%char]])) /\
  @dispatch oled64 cwd_root [["009"%char]] =
    ([printf newline; exec_call (lit "/" ++ ["009"%char] ++ lit ".elf")], Ret 1).
Proof. vm_compute. repeat split. Qed.

(** C4 (amended): the dispatcher splits the line at the space character
    (other white space is part of a token): for every line with at most 100
    tokens, the tokens are, in order, the maximal runs of characters other
    than the space, each non-empty; [mode 2] yields the two tokens [mode] and
    [2]; an empty line or a line of spaces yields no token, and the shell
    then prints only its prompt and goes back to line editing with an empty
    buffer. *)
Theorem tokenize_space_fields `{Platform} (cwd : cstring) (cmdline : cstring) :
  Z.of_nat (length (fields is_space_char cmdline)) <= ARGV_LEN ->
  tokenize cmdline =
    ([], Ret (Z.of_nat (length (fields is_space_char cmdline)),
              fields is_space_char cmdline)) /\
  Forall (fun tok => tok <> [] /\ ~ In " "%char tok) (fields is_space_char cmdline) /\
  tokenize (lit "mode 2") = ([], Ret (2, [lit "mode"; lit "2"])) /\
  (forall n, tokenize (repeat " "%char n) = ([], Ret (0, []))) /\
  dispatch cwd [] = ([], Ret 1) /\
  (fields is_space_char cmdline = [] ->
   forall line input c,
     c_str line = cmdline -> c = 10 \/ c = 13 ->
     shell_loop cwd (c :: input) line =
       after [putchar 10; putchar 93] (shell_loop cwd input [])).
Proof.
  intros Hfit. repeat split.
  - apply tokenize_fields. assumption.
  - apply fields_tokens.
  - intros n. rewrite tokenize_fields; rewrite fields_spaces; [reflexivity | cbn; lia].
  - intros Hnone line input c Hline Hc.
    apply (shell_loop_dispatch cwd c input line [] []); auto.
    rewrite Hline, tokenize_fields, Hnone; [reflexivity | assumption].
Qed.

Lemma tokenize_space_fields_witness :
  tokenize (lit "  ls   -l ") = ([], Ret (2, [lit "ls"; lit "-l"])).
Proof.
  apply (@tokenize_space_fields oled64 cwd_root (lit "  ls   -l ")).
  vm_compute. discriminate.
Defined.

(** ** Builtins *)

Lemma shell_exec_mode `{Platform} (cwd : cstring) (args : list cstring) :
  dispatch cwd (lit "mode" :: args) =
    if Nat.eqb (length args) 1
    then ([GL_tty_init (mode_number (atoi (arg args 0)))], Ret 1)
    else ([printf argument_error], Ret 1).
Proof.
  unfold dispatch, shell_exec. cbn [arg nth length].
  replace (Z.of_nat (S (length args)) =? 0) with false by (symmetry; apply Z.eqb_neq; lia).
  replace (Z.of_nat (S (length args)) =? 2) with (Nat.eqb (length args) 1)
    by (destruct (Nat.eqb_spec (length args) 1), (Z.eqb_spec (Z.of_nat (S (length args))) 2);
        auto; lia).
  change (streq (lit "mode") "exit") with false.
  change (streq (lit "mode") "ls") with false.
  change (streq (lit "mode") "pwd") with false.
  change (streq (lit "mode") "mode") with true.
  cbv iota. destruct (Nat.eqb (length args) 1); reflexivity.
Qed.

Lemma shell_exec_font `{Platform} (cwd : cstring) (args : list cstring) :
  dispatch cwd (lit "font" :: args) =
    if Nat.eqb (length args) 1
    then (GL_tty_init FGA_mode ::
          match atoi (arg args 0) with
          | 0 => [GL_set_font Font3x5]
          | 1 => [GL_set_font Font5x6]
          | 2 => [GL_set_font Font8x8]
          | 3 => [GL_set_font Font8x16]
          | _ => []
          end, Ret 1)
    else ([printf argument_error], Ret 1).
Proof.
  unfold dispatch, shell_exec. cbn [arg nth length].
  replace (Z.of_nat (S (length args)) =? 0) with false by (symmetry; apply Z.eqb_neq; lia).
  replace (Z.of_nat (S (length args)) =? 2) with (Nat.eqb (length args) 1)
    by (destruct (Nat.eqb_spec (length args) 1), (Z.eqb_spec (Z.of_nat (S (length args))) 2);
        auto; lia).
  change (streq (lit "font") "exit") with false.
  change (streq (lit "font") "ls") with false.
  change (streq (lit "font") "pwd") with false.
  change (streq (lit "font") "mode") with false.
  change (streq (lit "font") "font") with true.
  cbv iota. destruct (Nat.eqb (length args) 1); [| reflexivity].
  cbn [negb]. unfold arg.
  destruct (atoi (nth 0 args [])) as [| [[[] | [] |] | [[] | [] |] |] |]; reflexivity.
Qed.

(** C8: [mode] or [font] dispatched with a number of arguments other than
    one prints the argument-count message and does nothing else: no call of
    [GL_tty_init] or [GL_set_font], and the result is 1 (continue), so that
    the shell prints its prompt and goes on editing an empty line. *)
Theorem builtin_argument_count `{Platform} (cwd : cstring) (cmd : cstring)
    (args : list cstring) :
  cmd = lit "mode" \/ cmd = lit "font" ->
  length args <> 1%nat ->
  dispatch cwd (cmd :: args) = ([printf argument_error], Ret 1) /\
  forall line input c,
    tokenize (c_str line) = ret (Z.of_nat (length (cmd :: args)), cmd :: args) ->
    c = 10 \/ c = 13 ->
    shell_loop cwd (c :: input) line =
      after [printf argument_error; putchar 10; putchar 93] (shell_loop cwd input []).
Proof.
  intros Hcmd Hargs.
  assert (Hrun : dispatch cwd (cmd :: args) = ([printf argument_error], Ret 1)).
  { apply Nat.eqb_neq in Hargs.
    destruct Hcmd as [-> | ->]; [rewrite shell_exec_mode | rewrite shell_exec_font];
      rewrite Hargs; reflexivity. }
  split; [exact Hrun |].
  intros line input c Htok Hc.
  apply (shell_loop_dispatch cwd c input line (cmd :: args) [printf argument_error]);
    assumption.
Qed.

Lemma builtin_argument_count_witness :
  @dispatch oled64 cwd_root [lit "font"; lit "1"; lit "2"] = ([printf argument_error], Ret 1) /\
  @dispatch oled64 cwd_root [lit "mode"] = ([printf argument_error], Ret 1).
Proof.
  split.
  - apply (@builtin_argument_count oled64 cwd_root (lit "font") [lit "1"; lit "2"]).
    + right. reflexivity.
    + cbn. discriminate.
  - apply (@builtin_argument_count oled64 cwd_root (lit "mode") []).
    + left. reflexivity.
    + cbn. discriminate.
Defined.

(** C9, as the code has it: [font 7] prints nothing and selects no font, but
    the display is re-initialised, as it is before every font selection. *)
Lemma font_unrecognized_reinit :
  @dispatch oled64 cwd_root [lit "font"; lit "7"] = ([GL_tty_init FGA_mode], Ret 1) /\
  In (GL_tty_init FGA_mode) (fst (@dispatch oled64 cwd_root [lit "font"; lit "7"])).
Proof. split; [reflexivity | left; reflexivity]. Qed.

(** C9 (amended): [font] with one argument whose number is not 0, 1, 2 or 3
    prints nothing and selects no font; its only effect is the call
    [GL_tty_init(FGA_mode)], which re-initialises the display in its current
    mode, and the dispatch returns 1. *)
Theorem font_unrecognized_index `{Platform} (cwd : cstring) (n : cstring) :
  ~ (0 <= atoi n <= 3) ->
  dispatch cwd [lit "font"; n] = ([GL_tty_init FGA_mode], Ret 1).
Proof.
  intros Hn. rewrite shell_exec_font. cbn [length Nat.eqb arg nth].
  destruct (atoi n) as [| [[[] | [] |] | [[] | [] |] |] |]; try reflexivity; lia.
Qed.

Lemma font_unrecognized_index_witness :
  @dispatch oled64 cwd_root [lit "font"; lit "-1"] = ([GL_tty_init FGA_mode], Ret 1).
Proof.
  apply (@font_unrecognized_index oled64 cwd_root (lit "-1")).
  vm_compute. intros [Hlo _]. apply Hlo. reflexivity.
Defined.

(** ** The line editor *)

(** Typing characters other than the two line ends echoes each of them and
    stores them while fewer than [PATH_LEN - 2] are held; the rest is
    dropped. *)
Lemma shell_loop_typing `{Platform} (cwd : cstring) (typed rest : list Z) (line : list ascii) :
  Forall (fun c => c <> 10 /\ c <> 13) typed ->
  (length line <= 253)%nat ->
  shell_loop cwd (typed ++ rest) line =
    after (map putchar typed)
          (shell_loop cwd rest (firstn 253 (line ++ map char_of_int typed))).
Proof.
  intros Htyped. revert line.
  induction Htyped as [| c typed [Hc10 Hc13] _ IH]; intros line Hline.
  - cbn [app map]. rewrite app_nil_r, firstn_all2 by lia.
    unfold after. cbn [app]. destruct (shell_loop cwd rest line). reflexivity.
  - cbn [app map shell_loop].
    replace (negb (c =? 10) && negb (c =? 13)) with true
      by (symmetry; apply andb_true_iff; split; apply negb_true_iff, Z.eqb_neq; assumption).
    rewrite bind_emit. unfold PATH_LEN.
    destruct (Z.ltb_spec (Z.of_nat (length line)) (255 - 2)) as [Hroom | Hfull].
    + rewrite IH by (rewrite length_app; cbn [length]; lia).
      rewrite after_after, <- app_assoc. reflexivity.
    + rewrite IH by lia. rewrite after_after. cbn [app].
      rewrite !firstn_app. replace (253 - length line)%nat with 0%nat by lia.
      reflexivity.
Qed.

(** ** The argument array *)

(** C10, as the code has it: the line editor stores the 202 characters of a
    line of 101 one-letter words, and tokenizing that line reaches the write
    [argv[100]], one past the end of the array; a line of the greatest
    length the editor stores, 253 characters, can hold 127 words. *)
Theorem argv_overflow :
  Z.of_nat (length (words 101)) <= PATH_LEN - 2 /\
  length (fields is_space_char (words 101)) = 101%nat /\
  tokenize (words 101) = ([], Stop (OutOfBounds 100)) /\
  @shell_loop oled64 cwd_root (keys_of (words 101) ++ [10]) [] =
    (map putchar (keys_of (words 101)), Stop (OutOfBounds 100)) /\
  Z.of_nat (length (firstn 253 (words 127))) = PATH_LEN - 2 /\
  length (fields is_space_char (firstn 253 (words 127))) = 127%nat.
Proof. vm_compute. repeat split. discriminate. Qed.

(** ** The displayed name *)

Lemma c_str_app_NUL (p r : list ascii) : c_str (p ++ NUL :: r) = c_str (p ++ [NUL]).
Proof.
  induction p as [| c p IH]; cbn [app c_str].
  - reflexivity.
  - destruct (Ascii.eqb c NUL); [reflexivity | f_equal; assumption].
Qed.

Lemma length_store {A} (buf : list A) (i : Z) (x : A) : length (store buf i x) = length buf.
Proof.
  unfold store.
  destruct (Z.leb_spec 0 i), (Z.ltb_spec i (Z.of_nat (length buf))); cbn [andb]; auto.
  rewrite length_app. cbn [length]. rewrite length_firstn, length_skipn. lia.
Qed.

Lemma store_app_r {A} (a b : list A) (i : Z) (x : A) :
  Z.of_nat (length a) <= i ->
  store (a ++ b) i x = a ++ store b (i - Z.of_nat (length a)) x.
Proof.
  intros Hi. unfold store. rewrite length_app.
  destruct (Z.ltb_spec i (Z.of_nat (length a + length b))) as [Hlt | Hge].
  - replace (0 <=? i) with true by (symmetry; apply Z.leb_le; lia).
    replace (0 <=? i - Z.of_nat (length a)) with true by (symmetry; apply Z.leb_le; lia).
    replace (i - Z.of_nat (length a) <? Z.of_nat (length b)) with true
      by (symmetry; apply Z.ltb_lt; lia).
    cbn [andb].
    rewrite firstn_app, skipn_app.
    rewrite firstn_all2, skipn_all2 by lia. cbn [app].
    rewrite <- app_assoc.
    replace (Z.to_nat (i - Z.of_nat (length a))) with (Z.to_nat i - length a)%nat by lia.
    replace (S (Z.to_nat i) - length a)%nat with (S (Z.to_nat i - length a)) by lia.
    reflexivity.
  - replace (i - Z.of_nat (length a) <? Z.of_nat (length b)) with false
      by (symmetry; apply Z.ltb_ge; lia).
    rewrite !andb_false_r. reflexivity.
Qed.

Lemma store_head {A} (c : A) (r : list A) (x : A) : store (c :: r) 0 x = x :: r.
Proof. unfold store. cbn [length]. replace (0 <? Z.of_nat (S (length r))) with true
    by (symmetry; apply Z.ltb_lt; lia). reflexivity. Qed.

Lemma store_behind_head {A} (c : A) (r : list A) (i : Z) (x : A) :
  0 < i -> exists r', store (c :: r) i x = c :: r' /\ length r' = length r.
Proof.
  intros Hi. pose proof (length_store (c :: r) i x) as Hlen. unfold store in *.
  destruct ((0 <=? i) && (i <? Z.of_nat (length (c :: r)))).
  - destruct (Z.to_nat i) as [| k] eqn:Hk; [lia |].
    cbn [firstn app] in *. eexists. split; [reflexivity |].
    cbn [length] in Hlen. lia.
  - eauto.
Qed.

Lemma strncpy_prefix (dst : list ascii) (src : cstring) (n : Z) :
  0 <= n <= strlen src ->
  strncpy dst src n = firstn (Z.to_nat n) src ++ skipn (Z.to_nat n) dst.
Proof.
  unfold strlen, strncpy. intros Hn. cbv zeta. rewrite firstn_app.
  replace (Z.to_nat n - length src)%nat with 0%nat by lia.
  cbn [firstn]. rewrite app_nil_r. reflexivity.
Qed.

(** What [refresh] prints for an executable name: the name without its
    extension when that has at most 14 characters, and else its first 14
    characters and a dot; the initial contents of [current] play no part. *)
Lemma display_name_in_eq (current : list ascii) (filename : cstring) :
  length current = Z.to_nat PATH_LEN ->
  4 <= strlen filename ->
  display_name_in current filename =
    c_str ((if strlen filename - 4 <=? 14
            then firstn (Z.to_nat (strlen filename - 4)) filename
            else firstn 14 filename ++ ["."%char]) ++ [NUL]).
Proof.
  intros Hcur Hl. unfold display_name_in. cbv zeta. rewrite MIN_min.
  rewrite strncpy_prefix by lia.
  remember (Z.min (strlen filename - 4) 14) as n eqn:Hn.
  assert (Hp : length (firstn (Z.to_nat n) filename) = Z.to_nat n).
  { rewrite length_firstn. unfold strlen in *. lia. }
  assert (Hr : length (skipn (Z.to_nat n) current) = (255 - Z.to_nat n)%nat).
  { rewrite length_skipn, Hcur. reflexivity. }
  destruct (skipn (Z.to_nat n) current) as [| c0 rest] eqn:Hrest; [cbn [length] in Hr; lia |].
  destruct (Z.leb_spec (strlen filename - 4) 14) as [Hshort | Hlong].
  - (* the terminator written at [l - 4] ends the name *)
    replace n with (strlen filename - 4) in * by lia.
    set (stem := firstn (Z.to_nat (strlen filename - 4)) filename) in *.
    assert (Hlast : forall buf, length buf = length (stem ++ c0 :: rest) ->
              firstn (length stem) buf = stem ->
              c_str (store buf (strlen filename - 4) NUL) = c_str (stem ++ [NUL])).
    { intros buf Hlen Hpre.
      rewrite <- (firstn_skipn (length stem) buf), Hpre.
      assert (Hs : length (skipn (length stem) buf) = S (length rest)).
      { rewrite length_skipn, Hlen, length_app. cbn [length]. lia. }
      destruct (skipn (length stem) buf) as [| b0 brest]; [discriminate |].
      rewrite store_app_r by lia.
      replace (strlen filename - 4 - Z.of_nat (length stem)) with 0 by lia.
      rewrite store_head. apply c_str_app_NUL. }
    apply Hlast.
    + rewrite !length_store. reflexivity.
    + rewrite !store_app_r by lia. rewrite firstn_app, firstn_all, Nat.sub_diag.
      cbn [firstn]. apply app_nil_r.
  - (* the dot and the terminator at 14 and 15 end the name *)
    replace n with 14 in * by lia. change (Z.to_nat 14) with 14%nat in *.
    set (stem := firstn 14 filename) in *.
    rewrite store_app_r by lia.
    replace (14 - Z.of_nat (length stem)) with 0 by lia. rewrite store_head.
    destruct rest as [| c1 rest]; [cbn in Hr; lia |].
    change (stem ++ "."%char :: c1 :: rest) with (stem ++ ["."%char] ++ c1 :: rest).
    rewrite app_assoc.
    rewrite store_app_r by (rewrite length_app; cbn [length]; lia).
    replace (15 - Z.of_nat (length (stem ++ ["."%char]))) with 0
      by (rewrite length_app; cbn [length]; lia).
    rewrite store_head.
    rewrite store_app_r by (rewrite length_app; cbn [length]; lia).
    replace (Z.of_nat (length (stem ++ ["."%char]))) with 15
      by (rewrite length_app; cbn [length]; lia).
    destruct (Z.eq_dec (strlen filename - 4) 15) as [H15 | H15].
    + rewrite H15. change (15 - 15) with 0. rewrite store_head. apply c_str_app_NUL.
    + destruct (store_behind_head NUL rest (strlen filename - 4 - 15) NUL) as (r' & -> & _);
        [lia |].
      apply c_str_app_NUL.
Qed.

Lemma display_name_in_indep (current : list ascii) (filename : cstring) :
  length current = Z.to_nat PATH_LEN ->
  4 <= strlen filename ->
  display_name_in current filename = display_name filename.
Proof.
  intros Hcur Hl. unfold display_name.
  rewrite !display_name_in_eq; auto using repeat_length.
Qed.

(** ** Where [main] re-clamps *)

Lemma main_start_reclamps `{Platform} (dir : directory) (sel from : Z) :
  total_count dir <= Int.max_signed ->
  snd (main_start 0 dir sel from) =
    Ret (Some (Browser (fst (reclamp (total_count dir) (sel, from)))
                       (snd (reclamp (total_count dir) (sel, from)))
                       (total_count dir))).
Proof.
  intros Hmax. unfold main_start. rewrite bind_emit. unfold after. cbn [snd Z.eqb negb].
  rewrite (snd_bind _ _ (total_count dir)) by (apply refresh_count; assumption).
  unfold reclamp. cbn [fst snd].
  rewrite (snd_bind _ _ (total_count dir)) by (apply refresh_count; assumption).
  reflexivity.
Qed.

Lemma main_iter_reclamps `{Platform} (dir : directory) (keys : list Z) (st : browser) (btn : Z) :
  total_count dir <= Int.max_signed ->
  btn = 2 \/ btn = 3 ->
  snd (main_iter dir keys btn st) =
    Ret (Browser
           (fst (reclamp (nb st) (wrap (if btn =? 2 then sel st - 1 else sel st + 1), from st)))
           (snd (reclamp (nb st) (wrap (if btn =? 2 then sel st - 1 else sel st + 1), from st)))
           (total_count dir)).
Proof.
  intros Hmax Hbtn. unfold main_iter, reclamp. cbn [fst snd].
  destruct Hbtn as [-> | ->]; cbn [Z.eqb Pos.eqb negb andb]; rewrite bind_ret.
  - rewrite (snd_bind _ _ (total_count dir)) by (apply refresh_count; assumption).
    reflexivity.
  - rewrite (snd_bind _ _ (total_count dir)) by (apply refresh_count; assumption).
    reflexivity.
Qed.

(** * Further properties *)

(** ** More on the monad *)

Lemma fst_bind {A B} (m : M A) (k : A -> M B) (a : A) :
  snd m = Ret a -> fst (bind m k) = fst m ++ fst (k a).
Proof.
  destruct m as [t r]. cbn [fst snd]. intros ->. unfold bind.
  destruct (k a). reflexivity.
Qed.

Lemma snd_bind_inv {A B} (m : M A) (k : A -> M B) (b : B) :
  snd (bind m k) = Ret b -> exists a, snd m = Ret a /\ snd (k a) = Ret b.
Proof.
  destruct m as [t [a | s]]; unfold bind; cbn [snd].
  - intros Hk. exists a. split; [reflexivity |]. destruct (k a). exact Hk.
  - discriminate.
Qed.

(** ** The launcher, selection in range *)

Lemma strlen_nonneg (s : cstring) : 0 <= strlen s.
Proof. unfold strlen. lia. Qed.

Lemma strlen_app (a b : cstring) : strlen (a ++ b) = strlen a + strlen b.
Proof. unfold strlen. rewrite length_app. lia. Qed.

Lemma strcpy_buff_fits (buff src : cstring) :
  strlen buff + strlen src + 1 <= PATH_LEN -> strcpy_buff buff src = ret (buff ++ src).
Proof.
  intros Hfit. unfold strcpy_buff.
  destruct (Z.leb_spec (strlen buff + strlen src + 1) PATH_LEN); [reflexivity | lia].
Qed.

Lemma strcpy_buff_over (buff src : cstring) :
  PATH_LEN < strlen buff + strlen src + 1 -> strcpy_buff buff src = ([], Stop BuffOverflow).
Proof.
  intros Hover. unfold strcpy_buff.
  destruct (Z.leb_spec (strlen buff + strlen src + 1) PATH_LEN); [lia | reflexivity].
Qed.

Lemma launch_result `{Platform} (cwd name : cstring) :
  (buff <- strcpy_buff [] cwd ;; buff <- strcpy_buff buff name ;; exec buff ;; exit 0
   : M unit) =
    if strlen cwd + strlen name + 1 <=? PATH_LEN then
      if exec_returns (cwd ++ name)
      then ([exec_call (cwd ++ name); exit_call 0], Stop (Exited 0))
      else ([exec_call (cwd ++ name)], Stop (Transferred (cwd ++ name)))
    else ([], Stop BuffOverflow).
Proof.
  pose proof (strlen_nonneg cwd) as Hcwd. pose proof (strlen_nonneg name) as Hname.
  destruct (Z.leb_spec (strlen cwd + strlen name + 1) PATH_LEN) as [Hfit | Hover].
  - rewrite (strcpy_buff_fits [] cwd) by (change (strlen []) with 0; lia).
    rewrite bind_ret. cbn [app].
    rewrite strcpy_buff_fits by lia. rewrite bind_ret.
    unfold exec, exit, bind. destruct (exec_returns (cwd ++ name)); reflexivity.
  - destruct (Z.leb_spec (strlen cwd + 1) PATH_LEN) as [Hfit | Hover'].
    + rewrite (strcpy_buff_fits [] cwd) by (change (strlen []) with 0; lia).
      rewrite bind_ret. cbn [app].
      rewrite strcpy_buff_over by lia. reflexivity.
    + rewrite (strcpy_buff_over [] cwd) by (change (strlen []) with 0; lia).
      reflexivity.
Qed.

Lemma call_exec_loop_result `{Platform} (cwd : cstring) (entries : list cstring) (sel cur : Z) :
  0 <= cur -> cur + count entries <= Int.max_signed ->
  cur <= sel < cur + count entries ->
  let name := nth (Z.to_nat (sel - cur)) (executables entries) [] in
  call_exec_loop cwd entries sel cur =
    if strlen cwd + strlen name + 1 <=? PATH_LEN then
      if exec_returns (cwd ++ name)
      then ([exec_call (cwd ++ name); exit_call 0], Stop (Exited 0))
      else ([exec_call (cwd ++ name)], Stop (Transferred (cwd ++ name)))
    else ([], Stop BuffOverflow).
Proof.
  cbv zeta. revert cur. unfold count, executables.
  induction entries as [| filename entries IH]; intros cur Hcur Hmax Hsel;
    cbn [call_exec_loop filter] in Hmax, Hsel |- *.
  - cbn [length] in Hsel. lia.
  - destruct (is_executable filename) eqn:Hx.
    + cbn [length] in *. destruct (Z.eqb_spec cur sel) as [-> | Hne].
      * rewrite Z.sub_diag. cbn [andb when Z.to_nat nth].
        rewrite launch_result.
        destruct (strlen cwd + strlen filename + 1 <=? PATH_LEN); [| reflexivity].
        destruct (exec_returns (cwd ++ filename)); reflexivity.
      * cbn [andb when]. rewrite bind_ret.
        assert (Hw : wrap (cur + 1) = cur + 1).
        { apply wrap_in_range. unfold Int.in_range, Int.min_signed, Int.max_signed in *. lia. }
        rewrite Hw, IH by lia.
        replace (Z.to_nat (sel - cur)) with (S (Z.to_nat (sel - (cur + 1)))) by lia.
        reflexivity.
    + apply IH; assumption.
Qed.

(** X1: with the selection on one of the programs of the card, [call_exec]
    builds in [buff] the path made of the working directory and the name of
    the program at that place among the programs. When the path and its
    terminator fit in the [PATH_LEN] bytes of [buff], it calls [exec] on the
    path and does not come back: if [exec] returns it calls [exit(0)]. When
    they do not fit, [strcpy] writes past the end of [buff] and [exec] is not
    reached. *)
Theorem call_exec_in_range `{Platform} (cwd : cstring) (entries : list cstring) (sel : Z) :
  count entries <= Int.max_signed ->
  0 <= sel < count entries ->
  let name := nth (Z.to_nat sel) (executables entries) [] in
  call_exec cwd (Some entries) sel =
    if strlen cwd + strlen name + 1 <=? PATH_LEN then
      if exec_returns (cwd ++ name)
      then ([exec_call (cwd ++ name); exit_call 0], Stop (Exited 0))
      else ([exec_call (cwd ++ name)], Stop (Transferred (cwd ++ name)))
    else ([], Stop BuffOverflow).
Proof.
  intros Hmax Hsel. cbv zeta. unfold call_exec.
  rewrite call_exec_loop_result by lia. rewrite Z.sub_0_r. reflexivity.
Qed.

Lemma call_exec_in_range_witness :
  @call_exec oled64 cwd_root (Some [lit "a.bin"; lit "notes.txt"; lit "b.elf"]) 1 =
    ([exec_call (lit "/b.elf"); exit_call 0], Stop (Exited 0)) /\
  @call_exec oled64 cwd_root (Some [repeat "x"%char 250 ++ lit ".bin"]) 0 =
    ([], Stop BuffOverflow).
Proof.
  split.
  - apply (@call_exec_in_range oled64 cwd_root [lit "a.bin"; lit "notes.txt"; lit "b.elf"] 1).
    + vm_compute. discriminate.
    + vm_compute. split; [discriminate | reflexivity].
  - apply (@call_exec_in_range oled64 cwd_root [repeat "x"%char 250 ++ lit ".bin"] 0).
    + vm_compute. discriminate.
    + vm_compute. split; [discriminate | reflexivity].
Defined.

(** ** What [refresh] shows *)

Lemma printed_app (t t' : list event) : printed (t ++ t') = printed t ++ printed t'.
Proof.
  induction t as [| e t IH]; [reflexivity |].
  destruct e; cbn [app printed]; rewrite IH; reflexivity.
Qed.

Lemma refresh_row_fst `{Platform} (b c : bool) (name : cstring) :
  fst (when b
         (when c (emit (GL_set_fg 0 0 0) ;; emit (GL_set_bg 255 255 255)) ;;
          emit (printf name) ;;
          when c (emit (GL_set_bg 0 0 0) ;; emit (GL_set_fg 255 255 255)))) =
    if b then
      if c then [GL_set_fg 0 0 0; GL_set_bg 255 255 255; printf name;
                 GL_set_bg 0 0 0; GL_set_fg 255 255 255]
      else [printf name]
    else [].
Proof. destruct b, c; reflexivity. Qed.

Lemma refresh_loop_printed `{Platform} (entries : list cstring) (from sel cur : Z) :
  0 <= cur -> cur + count entries <= Int.max_signed ->
  printed (fst (refresh_loop entries from sel cur)) =
    map row (firstn (Z.to_nat (wrap (from + LINES) - cur) - Z.to_nat (from - cur))
                    (skipn (Z.to_nat (from - cur)) (executables entries))).
Proof.
  revert cur. unfold count, executables.
  induction entries as [| filename entries IH]; intros cur Hcur Hmax;
    cbn [refresh_loop filter] in Hmax |- *.
  - rewrite skipn_nil, firstn_nil. reflexivity.
  - destruct (is_executable filename); cbn [negb]; [| apply IH; assumption].
    cbn [length] in Hmax.
    rewrite (fst_bind _ _ tt) by apply refresh_row_returns.
    rewrite refresh_row_fst, printed_app.
    assert (Hw : wrap (cur + 1) = cur + 1).
    { apply wrap_in_range. unfold Int.in_range, Int.min_signed, Int.max_signed in *. lia. }
    rewrite Hw, IH by lia. clear IH.
    set (hi := wrap (from + LINES)).
    set (names := filter is_executable entries).
    rewrite Z.geb_leb.
    destruct (Z.leb_spec from cur) as [Hlo | Hlo].
    + replace (Z.to_nat (from - cur)) with 0%nat by lia.
      replace (Z.to_nat (from - (cur + 1))) with 0%nat by lia.
      cbn [skipn]. rewrite !Nat.sub_0_r.
      destruct (Z.ltb_spec cur hi) as [Hhi | Hhi]; cbn [andb].
      * replace (Z.to_nat (hi - cur)) with (S (Z.to_nat (hi - (cur + 1)))) by lia.
        destruct (cur =? sel); reflexivity.
      * replace (Z.to_nat (hi - cur)) with 0%nat by lia.
        replace (Z.to_nat (hi - (cur + 1))) with 0%nat by lia.
        reflexivity.
    + cbn [andb printed app].
      replace (Z.to_nat (from - cur)) with (S (Z.to_nat (from - (cur + 1)))) by lia.
      cbn [skipn]. do 2 f_equal. lia.
Qed.

(** X2: [refresh] prints one row for each program of the card whose place
    among the programs is in [[from, from + LINES)], in the order of the
    directory and as its displayed name; so it never prints more than [LINES]
    rows, and none when the directory cannot be opened. *)
Theorem refresh_rows `{Platform} (entries : list cstring) (from sel : Z) :
  count entries <= Int.max_signed ->
  Int.in_range (from + LINES) ->
  printed (fst (refresh (Some entries) from sel)) =
    map row (window from (from + LINES) (executables entries)) /\
  (0 <= LINES ->
   (length (printed (fst (refresh (Some entries) from sel))) <= Z.to_nat LINES)%nat) /\
  printed (fst (refresh None from sel)) = [].
Proof.
  intros Hmax Hhi.
  assert (Hrows : printed (fst (refresh (Some entries) from sel)) =
                  map row (window from (from + LINES) (executables entries))).
  { unfold refresh. rewrite !bind_emit. unfold after. cbn [fst app printed].
    rewrite refresh_loop_printed by lia.
    rewrite (wrap_in_range _ Hhi), !Z.sub_0_r. reflexivity. }
  split; [exact Hrows |]. split; [| reflexivity].
  intros HL. rewrite Hrows, length_map. unfold window.
  rewrite length_firstn. lia.
Qed.

Lemma refresh_rows_witness :
  printed (fst (@refresh oled64
                  (Some (map (fun c => c :: lit ".bin")
                             (list_ascii_of_string "abcdefghijkl"))) 3 4)) =
    map (fun c => [c; "010"%char]) (list_ascii_of_string "defghijk").
Proof.
  apply (@refresh_rows oled64
           (map (fun c => c :: lit ".bin") (list_ascii_of_string "abcdefghijkl")) 3 4).
  - vm_compute. discriminate.
  - vm_compute. split; discriminate.
Defined.

Lemma highlighted_row (b c : bool) (name : cstring) (t : list event) :
  highlighted_from false
    ((if b then
        if c then [GL_set_fg 0 0 0; GL_set_bg 255 255 255; printf name;
                   GL_set_bg 0 0 0; GL_set_fg 255 255 255]
        else [printf name]
      else []) ++ t) =
  (if b && c then [name] else []) ++ highlighted_from false t.
Proof. destruct b, c; reflexivity. Qed.

Lemma refresh_loop_highlighted `{Platform} (entries : list cstring) (from sel cur : Z) :
  0 <= cur -> cur + count entries <= Int.max_signed ->
  highlighted_from false (fst (refresh_loop entries from sel cur)) =
    if (from <=? sel) && (sel <? wrap (from + LINES)) &&
       ((cur <=? sel) && (sel <? cur + count entries))
    then [row (nth (Z.to_nat (sel - cur)) (executables entries) [])]
    else [].
Proof.
  revert cur. unfold count, executables.
  induction entries as [| filename entries IH]; intros cur Hcur Hmax;
    cbn [refresh_loop filter] in Hmax |- *.
  - cbn [length fst ret highlighted_from].
    replace ((cur <=? sel) && (sel <? cur + Z.of_nat 0)) with false
      by (destruct (Z.leb_spec cur sel), (Z.ltb_spec sel (cur + Z.of_nat 0)); auto; lia).
    rewrite andb_false_r. reflexivity.
  - destruct (is_executable filename); cbn [negb]; [| apply IH; assumption].
    cbn [length] in Hmax |- *.
    rewrite (fst_bind _ _ tt) by apply refresh_row_returns.
    rewrite refresh_row_fst, highlighted_row.
    assert (Hw : wrap (cur + 1) = cur + 1).
    { apply wrap_in_range. unfold Int.in_range, Int.min_signed, Int.max_signed in *. lia. }
    rewrite Hw, IH by lia. clear IH.
    set (hi := wrap (from + LINES)).
    set (names := filter is_executable entries).
    rewrite Z.geb_leb.
    destruct (Z.eqb_spec cur sel) as [<- | Hne].
    + rewrite Z.sub_diag. cbn [Z.to_nat nth].
      replace (cur + 1 <=? cur) with false by (symmetry; apply Z.leb_gt; lia).
      replace (cur <=? cur) with true by (symmetry; apply Z.leb_le; lia).
      replace (cur <? cur + Z.of_nat (S (length names))) with true
        by (symmetry; apply Z.ltb_lt; lia).
      cbn [andb]. rewrite !andb_true_r, andb_false_r, app_nil_r. reflexivity.
    + rewrite andb_false_r. cbn [app].
      replace (cur + 1 + Z.of_nat (length names)) with (cur + Z.of_nat (S (length names)))
        by lia.
      destruct (Z.leb_spec (cur + 1) sel) as [Hafter | Hbefore].
      * replace (cur <=? sel) with true by (symmetry; apply Z.leb_le; lia).
        replace (Z.to_nat (sel - cur)) with (S (Z.to_nat (sel - (cur + 1)))) by lia.
        reflexivity.
      * replace (cur <=? sel) with false by (symmetry; apply Z.leb_gt; lia).
        cbn [andb]. rewrite andb_false_r. reflexivity.
Qed.

(** X3: [refresh] prints on a white background the row of the program at
    place [sel], and that row only, when [sel] is a place among the programs
    and inside the window [[from, from + LINES)]; otherwise it prints no row
    on white. The program of that row is the one [call_exec] calls [exec] on
    for the same [sel], when its path fits in [buff]. *)
Theorem refresh_highlight `{Platform} (cwd : cstring) (entries : list cstring)
    (from sel : Z) :
  count entries <= Int.max_signed ->
  Int.in_range (from + LINES) ->
  let name := nth (Z.to_nat sel) (executables entries) [] in
  highlighted (fst (refresh (Some entries) from sel)) =
    (if (from <=? sel) && (sel <? from + LINES) && ((0 <=? sel) && (sel <? count entries))
     then [row name]
     else []) /\
  (0 <= sel < count entries ->
   strlen cwd + strlen name + 1 <= PATH_LEN ->
   hd_error (fst (call_exec cwd (Some entries) sel)) = Some (exec_call (cwd ++ name))).
Proof.
  intros Hmax Hhi. cbv zeta. split.
  - unfold highlighted, refresh. rewrite !bind_emit. unfold after.
    cbn [fst app highlighted_from].
    rewrite refresh_loop_highlighted by lia.
    rewrite (wrap_in_range _ Hhi), Z.sub_0_r, Z.add_0_l. reflexivity.
  - intros Hsel Hfit. unfold call_exec.
    rewrite call_exec_loop_result by lia. rewrite Z.sub_0_r.
    replace (strlen cwd + strlen (nth (Z.to_nat sel) (executables entries) []) + 1
             <=? PATH_LEN) with true by (symmetry; apply Z.leb_le; assumption).
    destruct (exec_returns _); reflexivity.
Qed.

Lemma refresh_highlight_witness :
  highlighted (fst (@refresh oled64
                      (Some [lit "a.bin"; lit "notes.txt"; lit "b.elf"; lit "c.bin"]) 0 1)) =
    [lit "b" ++ newline] /\
  (0 <= 1 < count [lit "a.bin"; lit "notes.txt"; lit "b.elf"; lit "c.bin"] ->
   strlen cwd_root + strlen (lit "b.elf") + 1 <= PATH_LEN ->
   hd_error (fst (@call_exec oled64 cwd_root
                    (Some [lit "a.bin"; lit "notes.txt"; lit "b.elf"; lit "c.bin"]) 1)) =
     Some (exec_call (lit "/b.elf"))).
Proof.
  apply (@refresh_highlight oled64 cwd_root
           [lit "a.bin"; lit "notes.txt"; lit "b.elf"; lit "c.bin"] 0 1).
  - vm_compute. discriminate.
  - vm_compute. split; discriminate.
Defined.

(** ** The displayed name *)




(** ** The tokens of a line, in full *)

Lemma tokenize_loop_overflow (bound : nat) (saved : cstring) (argv : list cstring) :
  (length saved <= bound)%nat ->
  Z.of_nat (length argv) <= ARGV_LEN ->
  ARGV_LEN < Z.of_nat (length argv + length (fields is_space_char saved)) ->
  tokenize_loop bound saved (Z.of_nat (length argv)) argv = ([], Stop (OutOfBounds ARGV_LEN)).
Proof.
  revert saved argv.
  induction bound as [| bound IH]; intros saved argv Hbound Hin Hover; cbn [tokenize_loop].
  - destruct saved; [| cbn in Hbound; lia].
    unfold fields in Hover. cbn in Hover. lia.
  - pose proof (strtok_fields saved) as Htok.
    destruct (strtok saved (lit " ")) as [[tok rest] |].
    + destruct Htok as [Hfields Hlen]. rewrite Hfields in Hover. cbn [length] in Hover.
      replace (0 <=? Z.of_nat (length argv)) with true by (symmetry; apply Z.leb_le; lia).
      cbn [andb]. unfold ARGV_LEN in *.
      destruct (Z.ltb_spec (Z.of_nat (length argv)) 100) as [Hroom | Hfull].
      * rewrite wrap_in_range
          by (unfold Int.in_range, Int.min_signed, Int.max_signed; lia).
        replace (Z.of_nat (length argv) + 1) with (Z.of_nat (length (argv ++ [tok])))
          by (rewrite length_app; cbn [length]; lia).
        apply IH; rewrite ?length_app; cbn [length]; lia.
      * do 3 f_equal. lia.
    + rewrite Htok in Hover. cbn [length] in Hover. lia.
Qed.

(** X5: the tokenizing loop either ends with the fields of the line, when
    there are at most 100 of them, or stops at the write of [argv[100]]; it
    ends in one of these two ways for every line. *)
Theorem tokenize_complete (cmdline : cstring) :
  tokenize cmdline =
    if Z.of_nat (length (fields is_space_char cmdline)) <=? ARGV_LEN
    then ([], Ret (Z.of_nat (length (fields is_space_char cmdline)),
                   fields is_space_char cmdline))
    else ([], Stop (OutOfBounds ARGV_LEN)).
Proof.
  destruct (Z.leb_spec (Z.of_nat (length (fields is_space_char cmdline))) ARGV_LEN)
    as [Hfit | Hover].
  - apply tokenize_fields. assumption.
  - unfold tokenize.
    apply (tokenize_loop_overflow (length cmdline) cmdline []); cbn [length];
      unfold ARGV_LEN in *; lia.
Qed.

Lemma split_at_measure (sep : ascii -> bool) (s : cstring) :
  exists piece pieces,
    split_at sep s = piece :: pieces /\
    (2 * length (filter nonempty pieces) + length piece <= length s)%nat.
Proof.
  induction s as [| c s (piece & pieces & Hsplit & Hsize)]; cbn [split_at].
  - exists [], []. split; [reflexivity | cbn; lia].
  - rewrite Hsplit. destruct (sep c).
    + exists [], (piece :: pieces). split; [reflexivity |].
      cbn [filter length]. destruct piece; cbn [nonempty length] in *; lia.
    + exists (c :: piece), pieces. split; [reflexivity |]. cbn [length]. lia.
Qed.

Lemma fields_length (sep : ascii -> bool) (s : cstring) :
  (2 * length (fields sep s) <= length s + 1)%nat.
Proof.
  unfold fields. destruct (split_at_measure sep s) as (piece & pieces & -> & Hsize).
  cbn [filter]. destruct piece; cbn [nonempty length] in *; lia.
Qed.

(** X6: a line of [n] characters has at most [(n + 1) / 2] tokens; so a line
    of at most 199 characters is tokenized without a write outside [argv],
    and the tokens are its fields. *)
Theorem tokenize_short_line (cmdline : cstring) :
  Z.of_nat (length cmdline) <= 199 ->
  2 * Z.of_nat (length (fields is_space_char cmdline)) <= Z.of_nat (length cmdline) + 1 /\
  tokenize cmdline =
    ([], Ret (Z.of_nat (length (fields is_space_char cmdline)),
              fields is_space_char cmdline)).
Proof.
  intros Hshort. pose proof (fields_length is_space_char cmdline) as Hsize.
  split; [lia |]. apply tokenize_fields. unfold ARGV_LEN. lia.
Qed.

Lemma tokenize_short_line_witness :
  tokenize (lit "font 2") = ([], Ret (2, [lit "font"; lit "2"])).
Proof.
  apply (tokenize_short_line (lit "font 2")). vm_compute. discriminate.
Defined.

Lemma concat_split_at (sep : ascii -> bool) (s : cstring) :
  concat (split_at sep s) = filter (fun c => negb (sep c)) s.
Proof.
  induction s as [| c s IH]; cbn [split_at filter]; [reflexivity |].
  destruct (sep c); cbn [negb concat app]; [assumption |].
  destruct (split_at sep s) as [| piece pieces]; cbn [concat app] in *;
    rewrite <- IH; reflexivity.
Qed.

Lemma concat_nonempty (l : list cstring) : concat (filter nonempty l) = concat l.
Proof.
  induction l as [| [| c piece] l IH]; cbn [filter nonempty concat app];
    rewrite ?IH; reflexivity.
Qed.

(** X7: when the tokenizing loop ends, [argc] is the number of tokens, no
    token is empty or holds a space, and the tokens put end to end are the
    line without its spaces: nothing but spaces is lost. *)
Theorem tokens_keep_characters (cmdline : cstring) (argc : Z) (argv : list cstring) :
  tokenize cmdline = ([], Ret (argc, argv)) ->
  argc = Z.of_nat (length argv) /\
  Forall (fun tok => tok <> [] /\ ~ In " "%char tok) argv /\
  concat argv = filter (fun c => negb (is_space_char c)) cmdline.
Proof.
  destruct (Z.leb_spec (Z.of_nat (length (fields is_space_char cmdline))) ARGV_LEN)
    as [Hfit | Hover].
  2: { pose proof (tokenize_loop_overflow (length cmdline) cmdline []) as Hstop.
       cbn [length] in Hstop. change (Z.of_nat 0) with 0 in Hstop.
       unfold tokenize. rewrite Hstop by (unfold ARGV_LEN in *; lia).
       discriminate. }
  rewrite tokenize_fields by assumption.
  intros Heq. injection Heq as <- <-. repeat split.
  - apply fields_tokens.
  - unfold fields. rewrite concat_nonempty. apply concat_split_at.
Qed.

Lemma tokens_keep_characters_witness :
  concat [lit "mode"; lit "2"] = filter (fun c => negb (is_space_char c)) (lit " mode  2 ").
Proof.
  apply (tokens_keep_characters (lit " mode  2 ") 2 [lit "mode"; lit "2"]). reflexivity.
Defined.

(** ** The line editor and the commands *)

(** X8: the line editor echoes every character typed before the end of the
    line, and keeps the first 253 of them, which leaves room in [cmdline]
    for the terminator; what is typed beyond is echoed and dropped. *)
Theorem line_editor_bounded `{Platform} (cwd : cstring) (keys rest : list Z) :
  Forall (fun c => c <> 10 /\ c <> 13) keys ->
  shell_loop cwd (keys ++ rest) [] =
    after (map putchar keys)
          (shell_loop cwd rest (firstn 253 (map char_of_int keys))) /\
  Z.of_nat (length (firstn 253 (map char_of_int keys))) <= PATH_LEN - 2.
Proof.
  intros Hkeys. split.
  - rewrite shell_loop_typing by (auto; cbn; lia). reflexivity.
  - rewrite length_firstn. unfold PATH_LEN. lia.
Qed.

Lemma line_editor_bounded_witness :
  @shell_loop oled64 cwd_root (keys_of (lit "ls") ++ []) [] =
    after (map putchar (keys_of (lit "ls")))
          (@shell_loop oled64 cwd_root [] (firstn 253 (map char_of_int (keys_of (lit "ls"))))).
Proof.
  apply (@line_editor_bounded oled64 cwd_root (keys_of (lit "ls")) []).
  repeat constructor; discriminate.
Defined.

Lemma code_NUL (c : ascii) : code c = 0 -> c = NUL.
Proof. intros Hc. apply code_inj. rewrite Hc. reflexivity. Qed.

Lemma strcmp_eq_iff (a b : cstring) :
  ~ In NUL a -> ~ In NUL b -> (strcmp a b = 0 <-> a = b).
Proof.
  intros Ha Hb. split; [| intros ->; apply strcmp_refl].
  revert b Hb. induction a as [| c a IH]; intros [| d b] Hb Hcmp; cbn [strcmp] in Hcmp.
  - reflexivity.
  - exfalso. apply Hb. left. apply code_NUL. lia.
  - exfalso. apply Ha. left. apply code_NUL. lia.
  - destruct (Z.eqb_spec (code c) (code d)) as [Hcd | Hcd]; [| lia].
    f_equal; [apply code_inj; assumption |].
    apply IH; [| | assumption]; intros Hin; [apply Ha | apply Hb]; right; assumption.
Qed.

Lemma streq_false (a : cstring) (b : string) :
  ~ In NUL a -> ~ In NUL (lit b) -> a <> lit b -> streq a b = false.
Proof.
  intros Ha Hb Hne. unfold streq. apply Z.eqb_neq. intros Hcmp.
  apply Hne. apply strcmp_eq_iff; assumption.
Qed.

Lemma clean_literal (b : string) :
  forallb (fun c => negb (Ascii.eqb c NUL)) (lit b) = true -> ~ In NUL (lit b).
Proof.
  intros Hall Hin. rewrite forallb_forall in Hall. specialize (Hall NUL Hin).
  discriminate.
Qed.

(** X9: [shell_exec] returns 0, which ends the shell, for the command [exit]
    and for no other first token, and every other dispatch that returns
    gives 1; [exit] has no effect of its own, whatever its arguments. *)
Theorem exit_only `{Platform} (cwd : cstring) (argv : list cstring) :
  ~ In NUL (arg argv 0) ->
  (forall r, snd (dispatch cwd argv) = Ret r ->
             r = 0 /\ (exists args, argv = lit "exit" :: args) \/
             r = 1 /\ ~ (exists args, argv = lit "exit" :: args)) /\
  (snd (dispatch cwd argv) = Ret 0 <-> exists args, argv = lit "exit" :: args) /\
  (forall args, dispatch cwd (lit "exit" :: args) = ([], Ret 0)).
Proof.
  intros Hclean.
  assert (Hexit : forall args, dispatch cwd (lit "exit" :: args) = ([], Ret 0)).
  { intros args. unfold dispatch, shell_exec. cbn [length arg nth].
    replace (Z.of_nat (S (length args)) =? 0) with false by (symmetry; apply Z.eqb_neq; lia).
    reflexivity. }
  assert (Hall : forall r, snd (dispatch cwd argv) = Ret r ->
             r = 0 /\ (exists args, argv = lit "exit" :: args) \/
             r = 1 /\ ~ (exists args, argv = lit "exit" :: args)).
  { intros r. destruct argv as [| cmd args].
    - intros Hr. cbn in Hr. right. split; [congruence |]. intros [args Habs]. discriminate.
    - unfold dispatch, shell_exec. cbn [length arg nth] in *.
      replace (Z.of_nat (S (length args)) =? 0) with false
        by (symmetry; apply Z.eqb_neq; lia).
      destruct (streq cmd "exit") eqn:Hcmd.
      + intros Hr. cbn in Hr. left. split; [congruence |]. exists args. f_equal.
        apply strcmp_eq_iff; [assumption | apply clean_literal; reflexivity |].
        apply Z.eqb_eq. exact Hcmd.
      + intros Hr. apply snd_bind_inv in Hr. destruct Hr as (_ & _ & Hone).
        cbn in Hone. right. split; [congruence |].
        intros [args' Habs]. injection Habs as -> _. discriminate. }
  split; [exact Hall |]. split; [| exact Hexit]. split.
  - intros Hzero. destruct (Hall 0 Hzero) as [[_ Hyes] | [Hone _]]; [exact Hyes | discriminate].
  - intros [args ->]. rewrite Hexit. reflexivity.
Qed.

Lemma exit_only_witness :
  (forall r, snd (@dispatch oled64 cwd_root [lit "pwd"; lit "now"]) = Ret r ->
             r = 0 /\ (exists args, [lit "pwd"; lit "now"] = lit "exit" :: args) \/
             r = 1 /\ ~ (exists args, [lit "pwd"; lit "now"] = lit "exit" :: args)) /\
  (snd (@dispatch oled64 cwd_root [lit "pwd"; lit "now"]) = Ret 0 <->
   exists args, [lit "pwd"; lit "now"] = lit "exit" :: args) /\
  (forall args, @dispatch oled64 cwd_root (lit "exit" :: args) = ([], Ret 0)).
Proof.
  apply (@exit_only oled64 cwd_root [lit "pwd"; lit "now"]).
  apply (clean_literal "pwd"). reflexivity.
Defined.

Lemma shell_path `{Platform} (cwd cmd : cstring) :
  (buff <- strcpy_buff [] cwd ;;
   buff <- strcpy_buff buff cmd ;;
   buff <- strcpy_buff buff (lit ".elf") ;;
   exec buff) =
    if strlen (cwd ++ cmd ++ lit ".elf") + 1 <=? PATH_LEN
    then exec (cwd ++ cmd ++ lit ".elf")
    else ([], Stop BuffOverflow).
Proof.
  pose proof (strlen_nonneg cwd) as Hcwd. pose proof (strlen_nonneg cmd) as Hcmd.
  rewrite !strlen_app. change (strlen (lit ".elf")) with 4.
  destruct (Z.leb_spec (strlen cwd + 1) PATH_LEN) as [Hfit1 | Hover1].
  - rewrite (strcpy_buff_fits [] cwd) by (change (strlen []) with 0; lia).
    rewrite bind_ret. cbn [app].
    destruct (Z.leb_spec (strlen cwd + strlen cmd + 1) PATH_LEN) as [Hfit2 | Hover2].
    + rewrite strcpy_buff_fits by lia. rewrite bind_ret.
      destruct (Z.leb_spec (strlen cwd + (strlen cmd + 4) + 1) PATH_LEN) as [Hfit3 | Hover3].
      * rewrite strcpy_buff_fits
          by (rewrite strlen_app; change (strlen (lit ".elf")) with 4; lia).
        rewrite bind_ret, <- app_assoc. reflexivity.
      * rewrite strcpy_buff_over
          by (rewrite strlen_app; change (strlen (lit ".elf")) with 4; lia).
        reflexivity.
    + rewrite strcpy_buff_over by lia.
      destruct (Z.leb_spec (strlen cwd + (strlen cmd + 4) + 1) PATH_LEN); [lia | reflexivity].
  - rewrite (strcpy_buff_over [] cwd) by (change (strlen []) with 0; lia).
    destruct (Z.leb_spec (strlen cwd + (strlen cmd + 4) + 1) PATH_LEN); [lia | reflexivity].
Qed.

(** X10: a first token that is not one of the five builtin names is taken as
    the name of a program: [shell_exec] prints a newline and builds in
    [buff] the working directory followed by the token and [.elf]. When that
    path and its terminator fit in the [PATH_LEN] bytes of [buff], it calls
    [exec] on the path, and the result is 1 if [exec] returns; when they do
    not fit, [strcpy] writes past the end of [buff] and [exec] is not
    reached. The other tokens are ignored. *)
Theorem unknown_command_launches `{Platform} (cwd cmd : cstring) (args : list cstring) :
  ~ In NUL cmd ->
  ~ In cmd builtins ->
  let path := cwd ++ cmd ++ lit ".elf" in
  dispatch cwd (cmd :: args) =
    if strlen path + 1 <=? PATH_LEN
    then ([printf newline; exec_call path],
          if exec_returns path then Ret 1 else Stop (Transferred path))
    else ([printf newline], Stop BuffOverflow).
Proof.
  intros Hclean Hcmd. cbv zeta. unfold dispatch, shell_exec. cbn [length arg nth].
  replace (Z.of_nat (S (length args)) =? 0) with false by (symmetry; apply Z.eqb_neq; lia).
  rewrite !streq_false;
    try assumption; try (apply clean_literal; reflexivity);
    try (intros ->; apply Hcmd; cbn; tauto).
  rewrite shell_path.
  destruct (strlen (cwd ++ cmd ++ lit ".elf") + 1 <=? PATH_LEN).
  - unfold exec, emit, bind, ret.
    destruct (exec_returns (cwd ++ cmd ++ lit ".elf")); reflexivity.
  - reflexivity.
Qed.

Lemma unknown_command_launches_witness :
  @dispatch oled64 cwd_root [lit "tetris"; lit "-fast"] =
    ([printf newline; exec_call (lit "/tetris.elf")], Ret 1) /\
  @dispatch oled64 cwd_root [repeat "x"%char 250] = ([printf newline], Stop BuffOverflow).
Proof.
  split.
  - apply (@unknown_command_launches oled64 cwd_root (lit "tetris") [lit "-fast"]).
    + apply (clean_literal "tetris"). reflexivity.
    + cbn. intros Hin. repeat (destruct Hin as [Hin | Hin]; [discriminate |]). exact Hin.
  - apply (@unknown_command_launches oled64 cwd_root (repeat "x"%char 250) []).
    + intros Hin. apply repeat_spec in Hin. discriminate.
    + cbn. intros Hin. repeat (destruct Hin as [Hin | Hin]; [discriminate |]). exact Hin.
Defined.

(** X11: a session of the shell in which the first line typed has [exit] as
    its first token: the shell prints its banner and echoes the line; when
    the line has at most 100 tokens it then sets the display back to the
    OLED mode and returns, reading nothing of what is typed after that line;
    when the line has more, the write of [argv[100]] comes before [exit] is
    looked at. *)
Theorem shell_exit_session `{Platform} (cwd : cstring) (keys : list Z) (c : Z)
    (rest : list Z) (args : list cstring) :
  Forall (fun k => k <> 10 /\ k <> 13) keys ->
  c = 10 \/ c = 13 ->
  fields is_space_char (c_str (firstn 253 (map char_of_int keys))) = lit "exit" :: args ->
  shell cwd (keys ++ c :: rest) =
    if (length args <? 100)%nat
    then (banner ++ map putchar keys ++ [GL_tty_init GL_MODE_OLED], Ret tt)
    else (banner ++ map putchar keys, Stop (OutOfBounds ARGV_LEN)).
Proof.
  intros Hkeys Hc Hline. unfold shell. rewrite !bind_emit.
  rewrite shell_loop_typing by (auto; cbn; lia). cbn [app].
  cbn [shell_loop].
  replace (negb (c =? 10) && negb (c =? 13)) with false
    by (destruct Hc as [-> | ->]; reflexivity).
  destruct (Nat.ltb_spec (length args) 100) as [Hargs | Hargs].
  - rewrite tokenize_fields by (rewrite Hline; cbn [length]; unfold ARGV_LEN; lia).
    rewrite bind_ret, Hline.
    unfold shell_exec. cbn [length arg nth].
    replace (Z.of_nat (S (length args)) =? 0) with false by (symmetry; apply Z.eqb_neq; lia).
    change (streq (lit "exit") "exit") with true. cbv iota.
    rewrite bind_ret. cbn [Z.eqb].
    rewrite !bind_after. unfold after, ret, bind, emit, banner. cbn [fst snd app].
    rewrite ?app_nil_r. reflexivity.
  - pose proof (tokenize_loop_overflow
                  (length (c_str (firstn 253 (map char_of_int keys))))
                  (c_str (firstn 253 (map char_of_int keys))) []) as Hstop.
    cbn [length] in Hstop. change (Z.of_nat 0) with 0 in Hstop.
    unfold tokenize.
    rewrite Hstop by (rewrite ?Hline; cbn [length]; unfold ARGV_LEN; lia).
    unfold after, ret, bind, emit, banner. cbn [fst snd app].
    rewrite ?app_nil_r. reflexivity.
Qed.

Lemma shell_exit_session_witness :
  @shell oled64 cwd_root (keys_of (lit " exit") ++ 13 :: keys_of (lit "ls")) =
    (banner ++ map putchar (keys_of (lit " exit")) ++ [GL_tty_init GL_MODE_OLED], Ret tt).
Proof.
  apply (@shell_exit_session oled64 cwd_root (keys_of (lit " exit")) 13
           (keys_of (lit "ls")) []).
  - repeat constructor; discriminate.
  - right. reflexivity.
  - reflexivity.
Defined.

(** ** Scrolling *)

(** X12: the new scroll offset moves the window no more than is needed: it
    stays where it is when the selection is inside the window, becomes the
    selection when the selection is above the window, and becomes
    [sel - LINES + 1] when the selection is below it. *)
Theorem reclamp_from_minimal `{Platform} (sel from : Z) :
  FONT_HEIGHT <= OLED_HEIGHT <= Int.max_signed ->
  -1 <= sel <= Int.max_signed ->
  reclamp_from sel from =
    if (from <=? sel) && (sel <=? from + LINES - 1) then from
    else if sel <? from then sel
    else sel - LINES + 1.
Proof.
  intros Hh Hsel. pose proof (LINES_bounds Hh) as HL.
  rewrite reclamp_from_max_min by assumption.
  destruct (Z.leb_spec from sel), (Z.leb_spec sel (from + LINES - 1)); cbn [andb];
    try lia; destruct (Z.ltb_spec sel from); lia.
Qed.

Lemma reclamp_from_minimal_witness :
  @reclamp_from oled64 15 0 = 8 /\ @reclamp_from oled64 5 3 = 3 /\ @reclamp_from oled64 2 6 = 2.
Proof.
  split; [| split].
  - apply (@reclamp_from_minimal oled64 15 0); vm_compute; split; discriminate.
  - apply (@reclamp_from_minimal oled64 5 3); vm_compute; split; discriminate.
  - apply (@reclamp_from_minimal oled64 2 6); vm_compute; split; discriminate.
Defined.

(** ** The loop of [main] *)

Lemma button_switch_default {A} (btn : Z) (a b c d e : A) :
  btn <> 2 -> btn <> 3 -> btn <> 5 -> btn <> 4 ->
  match btn with 2 => a | 3 => b | 5 => c | 4 => d | _ => e end = e.
Proof.
  intros H2 H3 H5 H4.
  destruct btn as [| [[p | p |] | [p | p |] |] | p]; try reflexivity; try contradiction;
    destruct p; try reflexivity; contradiction.
Qed.

Lemma reclamp_sel_in_range (nb sel : Z) :
  0 <= nb <= Int.max_signed ->
  0 <= sel < nb \/ nb = 0 /\ sel = -1 ->
  reclamp_sel nb sel = sel.
Proof.
  intros Hnb Hsel. pose proof (reclamp_sel_cases nb sel Hnb). lia.
Qed.

(** X13: a turn of the loop in which no button is pressed ([GUI_button]
    gives 0 or -1) draws nothing, reads neither the card nor the keyboard,
    and leaves a state whose selection is in range as it is. *)
Theorem idle_turn `{Platform} (dir : directory) (keys : list Z) (btn : Z) (st : browser) :
  btn = 0 \/ btn = -1 ->
  0 <= nb st <= Int.max_signed ->
  0 <= sel st < nb st \/ nb st = 0 /\ sel st = -1 ->
  main_iter dir keys btn st = ([], Ret st).
Proof.
  intros Hbtn Hnb Hsel. unfold main_iter.
  destruct Hbtn as [-> | ->]; cbn [Z.eqb negb andb]; rewrite bind_ret;
    rewrite reclamp_sel_in_range by assumption; destruct st; reflexivity.
Qed.

Lemma idle_turn_witness :
  @main_iter oled64 None [] 0 (Browser 3 1 5) = ([], Ret (Browser 3 1 5)).
Proof.
  apply (@idle_turn oled64 None [] 0 (Browser 3 1 5)).
  - left. reflexivity.
  - vm_compute. split; discriminate.
  - left. vm_compute. split; [discriminate | reflexivity].
Defined.

Lemma main_iter_result `{Platform} (dir : directory) (keys : list Z) (btn : Z)
    (st st' : browser) :
  total_count dir <= Int.max_signed ->
  snd (main_iter dir keys btn st) = Ret st' ->
  exists s1,
    (s1 = sel st /\ btn <> 2 /\ btn <> 3 \/
     btn = 2 /\ s1 = wrap (sel st - 1) \/
     btn = 3 /\ s1 = wrap (sel st + 1)) /\
    st' = if negb (btn =? 0) && negb (btn =? -1)
          then Browser (reclamp_sel (nb st) s1)
                       (reclamp_from (reclamp_sel (nb st) s1) (from st))
                       (total_count dir)
          else Browser (reclamp_sel (nb st) s1) (from st) (nb st).
Proof.
  intros Hmax Hret. unfold main_iter in Hret.
  apply snd_bind_inv in Hret. destruct Hret as (s1 & Hs1 & Hk).
  exists s1. split.
  - destruct (Z.eq_dec btn 2) as [-> | H2]; [right; left; split; [reflexivity |] |].
    { cbn in Hs1. congruence. }
    destruct (Z.eq_dec btn 3) as [-> | H3]; [right; right; split; [reflexivity |] |].
    { cbn in Hs1. congruence. }
    left. split; [| auto].
    destruct (Z.eq_dec btn 5) as [-> | H5].
    { apply snd_bind_inv in Hs1. destruct Hs1 as (_ & _ & Hs1). cbn in Hs1. congruence. }
    destruct (Z.eq_dec btn 4) as [-> | H4].
    { apply snd_bind_inv in Hs1. destruct Hs1 as (_ & _ & Hs1). cbn in Hs1. congruence. }
    rewrite button_switch_default in Hs1 by assumption. cbn in Hs1. congruence.
  - destruct (negb (btn =? 0) && negb (btn =? -1)).
    + apply snd_bind_inv in Hk. destruct Hk as (n & Hn & Hk).
      rewrite refresh_count in Hn by assumption. cbn in Hk. congruence.
    + cbn in Hk. congruence.
Qed.

Lemma main_iter_keeps_ok `{Platform} (dir : directory) (keys : list Z) (btn : Z)
    (st st' : browser) :
  FONT_HEIGHT <= OLED_HEIGHT <= Int.max_signed ->
  total_count dir <= Int.max_signed ->
  browser_ok dir st ->
  snd (main_iter dir keys btn st) = Ret st' ->
  browser_ok dir st'.
Proof.
  intros Hh Hmax (Hnb & Hwin & Hsel) Hret.
  pose proof (LINES_bounds Hh) as HL.
  destruct (main_iter_result dir keys btn st st' Hmax Hret) as (s1 & Hs1 & ->).
  assert (Hcount : 0 <= nb st <= Int.max_signed) by lia.
  assert (Hnear : -1 <= sel st <= nb st) by lia.
  assert (Hup : wrap (sel st - 1) = sel st - 1).
  { apply wrap_in_range. unfold Int.in_range, Int.min_signed, Int.max_signed in *. lia. }
  assert (Hdown : wrap (sel st + 1) = sel st + 1).
  { apply wrap_in_range. unfold Int.in_range, Int.min_signed, Int.max_signed in *. lia. }
  pose proof (reclamp_sel_cases (nb st) s1 Hcount) as Hclamp.
  assert (Hs : s1 = sel st \/ s1 = sel st - 1 \/ s1 = sel st + 1) by (rewrite <- Hup, <- Hdown; tauto).
  destruct (Z.eqb_spec btn 0) as [-> | H0]; cbn [negb andb].
  { unfold browser_ok. cbn [nb sel from]. destruct Hs1 as [[-> _] | [[? _] | [? _]]]; lia. }
  destruct (Z.eqb_spec btn (-1)) as [-> | H1]; cbn [negb andb].
  { unfold browser_ok. cbn [nb sel from]. destruct Hs1 as [[-> _] | [[? _] | [? _]]]; lia. }
  unfold browser_ok. cbn [nb sel from].
  rewrite reclamp_from_max_min by (auto; lia).
  lia.
Qed.

Lemma main_loop_keeps_ok `{Platform} (dir : directory) (polls : list poll) (st st' : browser) :
  FONT_HEIGHT <= OLED_HEIGHT <= Int.max_signed ->
  total_count dir <= Int.max_signed ->
  Forall (fun p => card p = dir) polls ->
  browser_ok dir st ->
  snd (main_loop polls st) = Ret st' ->
  browser_ok dir st'.
Proof.
  intros Hh Hmax Hpolls. revert st.
  induction Hpolls as [| p polls Hp _ IH]; intros st Hok Hret; cbn [main_loop] in Hret.
  - cbn in Hret. congruence.
  - apply snd_bind_inv in Hret. destruct Hret as (st1 & Hturn & Hrest).
    apply (IH st1); [| assumption].
    rewrite Hp in Hturn. apply (main_iter_keeps_ok dir (typed p) (button p) st); assumption.
Qed.

(** X14: as long as the card stays the same, [main] keeps the browser in a
    state that fits it, whatever the buttons and keys: [nb] is the number of
    programs, the selection is inside the window of [LINES] rows, and with
    at least one program the selection is one of them and the offset is not
    negative, while without any the selection is -1. This holds after the
    start, for any values the globals had with [from >= 0], and after every
    turn of the loop that comes back. *)
Theorem main_keeps_invariants `{Platform} (dir : directory) (sel0 from0 : Z)
    (polls : list poll) (out : option browser) :
  FONT_HEIGHT <= OLED_HEIGHT <= Int.max_signed ->
  total_count dir <= Int.max_signed ->
  0 <= from0 ->
  Forall (fun p => card p = dir) polls ->
  snd (main 0 dir sel0 from0 polls) = Ret out ->
  exists st, out = Some st /\ browser_ok dir st.
Proof.
  intros Hh Hmax Hfrom Hpolls Hret. unfold main in Hret.
  apply snd_bind_inv in Hret. destruct Hret as (start & Hstart & Hloop).
  rewrite main_start_reclamps in Hstart by assumption.
  injection Hstart as <-.
  apply snd_bind_inv in Hloop. destruct Hloop as (st & Hloop & Hout).
  exists st. split; [cbn in Hout; congruence |].
  eapply main_loop_keeps_ok; [exact Hh | exact Hmax | exact Hpolls | | exact Hloop].
  pose proof (LINES_bounds Hh) as HL.
  assert (Hcount : 0 <= total_count dir <= Int.max_signed).
  { split; [| assumption]. destruct dir; unfold total_count, count; lia. }
  pose proof (reclamp_sel_cases (total_count dir) sel0 Hcount) as Hclamp.
  unfold browser_ok, reclamp. cbn [nb sel from fst snd].
  rewrite reclamp_from_max_min by (auto; lia).
  lia.
Qed.

Lemma main_keeps_invariants_witness :
  exists st,
    Some (Browser 1 0 3) = Some st /\
    @browser_ok oled64 (Some [lit "a.bin"; lit "b.elf"; lit "notes.txt"; lit "c.bin"]) st.
Proof.
  apply (@main_keeps_invariants oled64
           (Some [lit "a.bin"; lit "b.elf"; lit "notes.txt"; lit "c.bin"]) 7 0
           (map (fun b => Poll b (Some [lit "a.bin"; lit "b.elf"; lit "notes.txt"; lit "c.bin"]) [])
                [3; 3; 0; 2; 9])).
  - vm_compute. split; discriminate.
  - vm_compute. discriminate.
  - vm_compute. discriminate.
  - repeat constructor.
  - reflexivity.
Defined.

(** X15: with a card that stays the same and a browser state that fits it,
    a turn of the loop for button 4 in which the shell is left with [exit],
    and a turn for a button that has no function, redraw the listing with
    the selection and the offset they found and change nothing of the
    state. *)
Theorem shell_returns_to_browser `{Platform} (dir : directory) (keys : list Z)
    (btn : Z) (st : browser) :
  FONT_HEIGHT <= OLED_HEIGHT <= Int.max_signed ->
  total_count dir <= Int.max_signed ->
  browser_ok dir st ->
  (snd (shell cwd_root keys) = Ret tt ->
   main_iter dir keys 4 st =
     (fst (shell cwd_root keys) ++ fst (refresh dir (from st) (sel st)), Ret st)) /\
  (~ In btn [0; -1; 2; 3; 4; 5] ->
   main_iter dir keys btn st = (fst (refresh dir (from st) (sel st)), Ret st)).
Proof.
  intros Hh Hmax (Hnb & Hwin & Hsel).
  pose proof (LINES_bounds Hh) as HL.
  assert (Hcount : 0 <= nb st <= Int.max_signed) by lia.
  assert (Hsame : reclamp_sel (nb st) (sel st) = sel st)
    by (apply reclamp_sel_in_range; [assumption | lia]).
  assert (Hstay : reclamp_from (sel st) (from st) = from st)
    by (rewrite reclamp_from_max_min by (auto; lia); lia).
  pose proof (refresh_count dir (from st) (sel st) Hmax) as Hdraw.
  destruct (refresh dir (from st) (sel st)) as [drawn r] eqn:Hrefresh.
  cbn [fst snd] in *. subst r.
  split.
  - intros Hexit. unfold main_iter.
    destruct (shell cwd_root keys) as [said r]. cbn [fst snd] in *. subst r.
    rewrite bind_events. cbv beta. rewrite bind_after, bind_ret. cbn [Z.eqb negb andb].
    rewrite Hsame, Hstay, Hrefresh, bind_events.
    unfold after, ret. cbn [fst snd]. rewrite app_nil_r, <- Hnb.
    destruct st; reflexivity.
  - intros Hbtn. unfold main_iter. cbn [In] in Hbtn.
    rewrite button_switch_default by (intros ->; apply Hbtn; auto 10).
    rewrite bind_ret.
    replace (negb (btn =? 0) && negb (btn =? -1)) with true
      by (symmetry; apply andb_true_iff; split; apply negb_true_iff, Z.eqb_neq;
          intros ->; apply Hbtn; auto 10).
    rewrite Hsame, Hstay, Hrefresh, bind_events.
    unfold after, ret. cbn [fst snd]. rewrite app_nil_r, <- Hnb.
    destruct st; reflexivity.
Qed.

Lemma shell_returns_to_browser_witness :
  @main_iter oled64 (Some [lit "a.bin"; lit "b.elf"]) (keys_of (lit "exit") ++ [10]) 4
    (Browser 1 0 2) =
  (fst (@shell oled64 cwd_root (keys_of (lit "exit") ++ [10])) ++
   fst (@refresh oled64 (Some [lit "a.bin"; lit "b.elf"]) 0 1), Ret (Browser 1 0 2)).
Proof.
  apply (@shell_returns_to_browser oled64 (Some [lit "a.bin"; lit "b.elf"])
           (keys_of (lit "exit") ++ [10]) 1 (Browser 1 0 2)).
  - vm_compute. split; discriminate.
  - vm_compute. discriminate.
  - vm_compute. repeat split; try discriminate. left. repeat split; discriminate.
  - reflexivity.
Defined.

(** ** The Mandelbrot demo *)

Lemma escape_le `{Mandel.Float} (iter : nat) (Cr Ci Zr Zi : Mandel.float) :
  (Mandel.escape iter Cr Ci Zr Zi <= iter)%nat.
Proof.
  revert Zr Zi. induction iter as [| iter IH]; intros Zr Zi; cbn [Mandel.escape].
  - lia.
  - destruct (Mandel.above4 _); [lia |]. specialize (IH
      (Mandel.fadd (Mandel.fsub (Mandel.fmul Zr Zr) (Mandel.fmul Zi Zi)) Cr)
      (Mandel.fadd (Mandel.twice (Mandel.fmul Zr Zi)) Ci)). lia.
Qed.

Lemma colour_values (iter : nat) :
  (iter <= 15)%nat -> Mandel.colour (Z.of_nat iter) = Z.of_nat iter * (2 ^ 19 + 4).
Proof.
  intros Hiter.
  do 16 (destruct iter as [| iter]; [reflexivity |]). lia.
Qed.

Lemma pixels_app (t t' : list Mandel.gl_event) :
  Mandel.pixels (t ++ t') = Mandel.pixels t ++ Mandel.pixels t'.
Proof.
  induction t as [| e t IH]; [reflexivity |].
  destruct e; cbn [app Mandel.pixels]; rewrite IH; reflexivity.
Qed.

Lemma columns_pixels `{Mandel.Float} (H0 : Z) (n : nat) (Cr Ci : Mandel.float) :
  length (Mandel.pixels (Mandel.columns H0 n Cr Ci)) = n /\
  length (Mandel.columns H0 n Cr Ci) = n /\
  Forall (fun rgb => exists iter, 0 <= iter <= 15 /\ rgb = iter * (2 ^ 19 + 4))
         (Mandel.pixels (Mandel.columns H0 n Cr Ci)).
Proof.
  revert Cr. induction n as [| n IH]; intros Cr; cbn [Mandel.columns Mandel.pixels length].
  - repeat split. constructor.
  - destruct (IH (Mandel.step H0 Cr)) as (Hpix & Hlen & Hall).
    repeat split; [congruence | congruence |].
    constructor; [| assumption].
    pose proof (escape_le 15 Cr Ci Cr Ci) as Hle.
    exists (Z.of_nat (Mandel.escape 15 Cr Ci Cr Ci)). split; [lia |].
    apply colour_values. assumption.
Qed.

Lemma rows_pixels `{Mandel.Float} (W H0 : Z) (n : nat) (Ci : Mandel.float) :
  length (Mandel.pixels (Mandel.rows W H0 n Ci)) = (n * Z.to_nat W)%nat /\
  length (Mandel.rows W H0 n Ci) = (n * Z.to_nat W)%nat /\
  Forall (fun rgb => exists iter, 0 <= iter <= 15 /\ rgb = iter * (2 ^ 19 + 4))
         (Mandel.pixels (Mandel.rows W H0 n Ci)).
Proof.
  revert Ci. induction n as [| n IH]; intros Ci; cbn [Mandel.rows].
  - repeat split. constructor.
  - destruct (IH (Mandel.step H0 Ci)) as (Hpix & Hlen & Hall).
    destruct (columns_pixels H0 (Z.to_nat W) Mandel.xmin Ci) as (Hpix' & Hlen' & Hall').
    rewrite pixels_app, !length_app. repeat split; [lia | lia |].
    apply Forall_app. split; assumption.
Qed.

(** X16: [mandel] opens the window of the whole screen once, as its first
    action, and then writes one data word for each pixel, [W] times [H] of
    them, and nothing else, whatever the floating-point operations
    compute. *)
Theorem mandel_pixel_count `{Mandel.Float} (W H0 : Z) :
  0 <= W -> 0 <= H0 ->
  exists data,
    Mandel.mandel W H0 = Mandel.GL_write_window 0 0 (W - 1) (H0 - 1) :: data /\
    Mandel.pixels data = Mandel.pixels (Mandel.mandel W H0) /\
    Z.of_nat (length data) = W * H0 /\
    Z.of_nat (length (Mandel.pixels data)) = W * H0.
Proof.
  intros HW HH. unfold Mandel.mandel.
  exists (Mandel.rows W H0 (Z.to_nat H0) Mandel.ymin).
  destruct (rows_pixels W H0 (Z.to_nat H0) Mandel.ymin) as (Hpix & Hlen & _).
  repeat split; [rewrite Hlen | rewrite Hpix]; nia.
Qed.

Lemma mandel_pixel_count_witness :
  exists data,
    @Mandel.mandel Mandel.integers 2 2 = Mandel.GL_write_window 0 0 (2 - 1) (2 - 1) :: data /\
    Mandel.pixels data = Mandel.pixels (@Mandel.mandel Mandel.integers 2 2) /\
    Z.of_nat (length data) = 2 * 2 /\
    Z.of_nat (length (Mandel.pixels data)) = 2 * 2.
Proof.
  apply (@mandel_pixel_count Mandel.integers 2 2); discriminate.
Defined.

(** X17: the escape loop of [mandel] makes at most 15 turns, and every data
    word written is [iter * (2^19 + 4)] for a count [iter] between 0 and 15:
    the count sits in bits 19 to 22 and in bits 2 to 5, and the word is one
    of 16 values. *)
Theorem mandel_colours `{Mandel.Float} (W H0 : Z) :
  Forall (fun rgb => exists iter, 0 <= iter <= 15 /\ rgb = iter * (2 ^ 19 + 4))
         (Mandel.pixels (Mandel.mandel W H0)) /\
  (forall Cr Ci Zr Zi, (Mandel.escape 15 Cr Ci Zr Zi <= 15)%nat).
Proof.
  split.
  - unfold Mandel.mandel. cbn [Mandel.pixels].
    apply (rows_pixels W H0 (Z.to_nat H0) Mandel.ymin).
  - intros Cr Ci Zr Zi. apply escape_le.
Qed.

(** ** Line ends and navigation *)

(** X18: carriage return and line feed each end a line, so the pair CR LF
    after a command that gives 1 dispatches the command and then an empty
    line: the prompt is printed twice. *)
Theorem crlf_double_prompt `{Platform} (cwd : cstring) (rest : list Z) (line : list ascii)
    (argv : list cstring) (out : list event) :
  tokenize (c_str line) = ret (Z.of_nat (length argv), argv) ->
  dispatch cwd argv = (out, Ret 1) ->
  shell_loop cwd (13 :: 10 :: rest) line =
    after (out ++ [putchar 10; putchar 93; putchar 10; putchar 93])
          (shell_loop cwd rest []).
Proof.
  intros Htok Hrun.
  rewrite (shell_loop_dispatch cwd 13 (10 :: rest) line argv out) by auto.
  rewrite (shell_loop_dispatch cwd 10 rest [] [] []) by auto.
  rewrite after_after, <- app_assoc. reflexivity.
Qed.

Lemma crlf_double_prompt_witness :
  @shell_loop oled64 cwd_root (13 :: 10 :: []) (lit "pwd") =
    after ([printf (newline ++ cwd_root ++ newline)] ++
           [putchar 10; putchar 93; putchar 10; putchar 93])
          (@shell_loop oled64 cwd_root [] []).
Proof.
  apply (@crlf_double_prompt oled64 cwd_root [] (lit "pwd") [lit "pwd"]
           [printf (newline ++ cwd_root ++ newline)]); reflexivity.
Defined.

Lemma refresh_loop_drawing `{Platform} (entries : list cstring) (from sel cur : Z) :
  Forall drawing (fst (refresh_loop entries from sel cur)).
Proof.
  revert cur. induction entries as [| filename entries IH]; intros cur; cbn [refresh_loop].
  - constructor.
  - destruct (is_executable filename); cbn [negb]; [| apply IH].
    rewrite (fst_bind _ _ tt) by apply refresh_row_returns.
    rewrite refresh_row_fst. apply Forall_app. split; [| apply IH].
    destruct ((cur >=? from) && (cur <? wrap (from + LINES))), (cur =? sel);
      repeat constructor.
Qed.

Lemma refresh_drawing `{Platform} (dir : directory) (from sel : Z) :
  Forall drawing (fst (refresh dir from sel)).
Proof.
  unfold refresh. rewrite !bind_emit. unfold after. cbn [fst app].
  do 2 (constructor; [exact I |]).
  destruct dir as [entries |]; [apply refresh_loop_drawing | constructor].
Qed.

Lemma main_iter_navigation `{Platform} (dir : directory) (keys : list Z) (btn : Z)
    (st : browser) :
  btn <> 4 -> btn <> 5 ->
  exists st', snd (main_iter dir keys btn st) = Ret st' /\
              Forall drawing (fst (main_iter dir keys btn st)).
Proof.
  intros H4 H5. unfold main_iter.
  assert (Hsel : exists s1,
             match btn with
             | 2 => ret (wrap (sel st - 1))
             | 3 => ret (wrap (sel st + 1))
             | 5 => call_exec cwd_root dir (sel st) ;; ret (sel st)
             | 4 => shell cwd_root keys ;; ret (sel st)
             | _ => ret (sel st)
             end = ret s1).
  { destruct (Z.eq_dec btn 2) as [-> | H2]; [eauto |].
    destruct (Z.eq_dec btn 3) as [-> | H3]; [eauto |].
    rewrite button_switch_default by assumption. eauto. }
  destruct Hsel as [s1 ->]. rewrite bind_ret.
  destruct (negb (btn =? 0) && negb (btn =? -1)).
  - pose proof (refresh_drawing dir (reclamp_from (reclamp_sel (nb st) s1) (from st))
                  (reclamp_sel (nb st) s1)) as Hdraw.
    destruct (refresh_returns dir (reclamp_from (reclamp_sel (nb st) s1) (from st))
                  (reclamp_sel (nb st) s1)) as [n Hn].
    destruct (refresh dir _ _) as [t r]. cbn [fst snd] in *. subst r.
    rewrite bind_events. unfold after, ret. cbn [fst snd]. rewrite app_nil_r. eauto.
  - cbn [ret fst snd]. eauto.
Qed.

(** X19: only buttons 4 and 5 can take the processor away from the browser:
    a run of turns with other buttons always comes back to the loop, and all
    it does is draw the listing; it calls neither [exec] nor [exit] and
    reads no key, whatever the card holds or however it changes. *)
Theorem navigation_never_launches `{Platform} (polls : list poll) (st : browser) :
  Forall (fun p => button p <> 4 /\ button p <> 5) polls ->
  exists st', snd (main_loop polls st) = Ret st' /\
              Forall drawing (fst (main_loop polls st)).
Proof.
  intros Hpolls. revert st.
  induction Hpolls as [| p polls [H4 H5] _ IH]; intros st; cbn [main_loop].
  - exists st. split; [reflexivity | constructor].
  - destruct (main_iter_navigation (card p) (typed p) (button p) st H4 H5)
      as (st1 & Hret & Hdraw).
    destruct (IH st1) as (st' & Hret' & Hdraw').
    exists st'. split.
    + rewrite (snd_bind _ _ st1) by assumption. assumption.
    + rewrite (fst_bind _ _ st1) by assumption. apply Forall_app. split; assumption.
Qed.

Lemma navigation_never_launches_witness :
  exists st',
    snd (@main_loop oled64 [Poll 3 (Some [lit "a.bin"; lit "b.elf"]) []; Poll 2 None []]
           (Browser 0 0 2)) = Ret st' /\
    Forall drawing
      (fst (@main_loop oled64 [Poll 3 (Some [lit "a.bin"; lit "b.elf"]) []; Poll 2 None []]
              (Browser 0 0 2))).
Proof.
  apply (@navigation_never_launches oled64
           [Poll 3 (Some [lit "a.bin"; lit "b.elf"]) []; Poll 2 None []] (Browser 0 0 2)).
  repeat constructor; discriminate.
Defined.
